(** * Bird Finder: species resolution and scoring engine

    A shallow embedding of the scoring core of the Bird Finder application
    ([ebird_client.py], [config.py], [mistral_client.py] and, of [app.py],
    the score combiner and the steps of [main] from the suggestions to the
    scores), followed by the properties of the design document that were
    checked against it and by further properties of the code.

    Conventions of the embedding.
    - Python [str] values are [string]s over 8-bit characters; case folding
      and whitespace follow Python on the ASCII range.
    - Python [dict]s that are used as maps are [gmap]s with string keys; a
      missing key and [dict.get]'s default are written out at every use.
    - Python exceptions are the constructors of [exn]; a function that can
      raise returns a [result], and each [try]/[except] of the source is a
      [match] on it that lists exactly the handlers of the source.
    - [print] appends an event to the log of the process state; the module
      global [_taxonomy_cache] is a field of that state.
    - The network, the clock and the configuration are fields of a [World]
      record that every effectful function takes.
    - Python [float] arithmetic is written once, over the interface
      [PyFloat], and read twice: over [Q] (exact arithmetic, for the
      statements that quantify over all inputs) and over the binary64 numbers
      of [PrimFloat] (what CPython computes, for evaluation). *)

From Stdlib Require Import ZArith QArith Qabs Lqa PrimFloat Uint63 Ascii.
From stdpp Require Import gmap strings list fin_maps sorting.

Set Warnings "-inexact-float".
Set Default Proof Using "Type".

(* ===================================================================== *)
(** * Python strings *)
(* ===================================================================== *)

Module PyStr.

(** [str.isspace] on one ASCII character: TAB, LF, VT, FF, CR, the four
    separators FS, GS, RS, US and SPACE. *)
Definition is_space (c : ascii) : bool :=
  let n := N_of_ascii c in
  (((9 <=? n) && (n <=? 13)) || ((28 <=? n) && (n <=? 32)))%N.

Definition lower_char (c : ascii) : ascii :=
  let n := N_of_ascii c in
  if ((65 <=? n) && (n <=? 90))%N then ascii_of_N (n + 32) else c.

(** [s.lower()] *)
Fixpoint lower (s : string) : string :=
  match s with
  | EmptyString => EmptyString
  | String c s' => String (lower_char c) (lower s')
  end.

Fixpoint lstrip (s : string) : string :=
  match s with
  | EmptyString => EmptyString
  | String c s' => if is_space c then lstrip s' else s
  end.

Fixpoint rstrip (s : string) : string :=
  match s with
  | EmptyString => EmptyString
  | String c s' =>
      match rstrip s' with
      | EmptyString => if is_space c then EmptyString else String c EmptyString
      | r => String c r
      end
  end.

(** [s.strip()] *)
Definition strip (s : string) : string := rstrip (lstrip s).

(** Truth value of a string: [bool(s)]. *)
Definition truthy (s : string) : bool :=
  match s with EmptyString => false | String _ _ => true end.

(** [len(s)] *)
Definition len (s : string) : Z := Z.of_nat (String.length s).

(** [sub in s] *)
Fixpoint contains (sub s : string) : bool :=
  String.prefix sub s ||
  match s with
  | EmptyString => false
  | String _ s' => contains sub s'
  end.

(** [s.split()]: the maximal runs of characters that are not whitespace. *)
Fixpoint split_go (cur : string) (s : string) : list string :=
  match s with
  | EmptyString => if truthy cur then [cur] else []
  | String c s' =>
      if is_space c
      then (if truthy cur then [cur] else []) ++ split_go EmptyString s'
      else split_go (cur +:+ String c EmptyString) s'
  end.

Definition split (s : string) : list string := split_go EmptyString s.

End PyStr.

(* ===================================================================== *)
(** * Exceptions *)
(* ===================================================================== *)

(** The exception classes the core can meet.  [Timeout] and [HTTPError] are
    the classes of [requests.exceptions]; both are subclasses of
    [RequestException], and every constructor is a subclass of [Exception]. *)
Inductive exn : Type :=
  | ValueError
  | IndexError
  | KeyError
  | TypeError
  | Timeout
  | HTTPError (status_code : Z)
  | RequestException
  | OtherException.

Inductive result (A : Type) : Type :=
  | Ok (a : A)
  | Raise (e : exn).
Arguments Ok {A} a.
Arguments Raise {A} e.

(* ===================================================================== *)
(** * Python floats *)
(* ===================================================================== *)

(** The operations on [float] that the core uses. [from_int n] is
    [float(n)]; the literals [5.0], [100.0] and [0.0] of the source are
    [from_int 5], [from_int 100] and [from_int 0]. *)
Class PyFloat (F : Type) : Type := {
  from_int : Z → F;
  fadd : F → F → F;
  fmul : F → F → F;
  fdiv : F → F → F
}.

(** Exact arithmetic. *)
#[export] Instance exact : PyFloat Q := {|
  from_int := inject_Z;
  fadd := Qplus;
  fmul := Qmult;
  fdiv := Qdiv
|}.

(** [float(n)] in binary64, for [|n| < 2^63]. *)
Definition float_of_Z (z : Z) : float :=
  if (z <? 0)%Z
  then PrimFloat.opp (PrimFloat.of_uint63 (Uint63.of_Z (- z)))
  else PrimFloat.of_uint63 (Uint63.of_Z z).

(** IEEE 754 binary64, the [float] of CPython. *)
#[export] Instance binary64 : PyFloat float := {|
  from_int := float_of_Z;
  fadd := PrimFloat.add;
  fmul := PrimFloat.mul;
  fdiv := PrimFloat.div
|}.

(* ===================================================================== *)
(** * Dates: the part of [datetime] the observation filter uses *)
(* ===================================================================== *)

Module Dates.
Local Open Scope Z_scope.

Record date : Type := mkDate { year : Z; month : Z; day : Z }.

(** [datetime]: a calendar date and the time of day in microseconds. *)
Record datetime : Type := mkDatetime { dt_date : date; dt_time : Z }.

Definition us_per_day : Z := 86400000000.

Definition valid_time (t : datetime) : Prop := 0 <= dt_time t < us_per_day.

Definition is_leap (y : Z) : bool :=
  (y mod 4 =? 0) && (negb (y mod 100 =? 0) || (y mod 400 =? 0)).

Definition days_in_month (y m : Z) : Z :=
  if (m =? 2) && is_leap y then 29
  else match m with
       | 1 | 3 | 5 | 7 | 8 | 10 | 12 => 31
       | 4 | 6 | 9 | 11 => 30
       | 2 => 28
       | _ => 0
       end.

(** The dates [datetime(y, m, d)] accepts; any other raises [ValueError]. *)
Definition valid_ymd (y m d : Z) : bool :=
  (1 <=? y) && (y <=? 9999) && (1 <=? m) && (m <=? 12) &&
  (1 <=? d) && (d <=? days_in_month y m).

Definition days_before_year (y : Z) : Z :=
  let p := y - 1 in p * 365 + p / 4 - p / 100 + p / 400.

Definition days_before_month (y m : Z) : Z :=
  match m with
  | 1 => 0 | 2 => 31 | 3 => 59 | 4 => 90 | 5 => 120 | 6 => 151
  | 7 => 181 | 8 => 212 | 9 => 243 | 10 => 273 | 11 => 304 | _ => 334
  end + (if (2 <? m) && is_leap y then 1 else 0).

(** [date.toordinal()] *)
Definition toordinal (d : date) : Z :=
  days_before_year (year d) + days_before_month (year d) (month d) + day d.

(** [(a - b).days]: the difference of two datetimes, rounded down to whole
    days as [timedelta] normalises it. *)
Definition days_between (a b : datetime) : Z :=
  ((toordinal (dt_date a) - toordinal (dt_date b)) * us_per_day
   + (dt_time a - dt_time b)) / us_per_day.

(** ** [datetime.strptime(s, "%Y-%m-%d")]

    The format is matched as the regular expression
    [(\d\d\d\d)-(1[0-2]|0[1-9]|[1-9])-(3[0-1]|[1-2]\d|0[1-9]|[1-9]| [1-9])]
    at the start of [s]; text left over after the match, and a day that
    the month does not have, raise [ValueError] ([None] here). *)

Definition digit (c : ascii) : option Z :=
  let n := N_of_ascii c in
  if ((48 <=? n) && (n <=? 57))%N then Some (Z.of_N n - 48) else None.

Definition four_digits (s : string) : option (Z * string) :=
  match s with
  | String a (String b (String c (String d rest))) =>
      match digit a, digit b, digit c, digit d with
      | Some x3, Some x2, Some x1, Some x0 =>
          Some (1000 * x3 + 100 * x2 + 10 * x1 + x0, rest)
      | _, _, _, _ => None
      end
  | _ => None
  end.

Definition two_digits (ok : Z → Z → bool) (s : string) : option (Z * string) :=
  match s with
  | String a (String b rest) =>
      match digit a, digit b with
      | Some x, Some y => if ok x y then Some (10 * x + y, rest) else None
      | _, _ => None
      end
  | _ => None
  end.

Definition one_digit (s : string) : option (Z * string) :=
  match s with
  | String a rest =>
      match digit a with
      | Some x => if 1 <=? x then Some (x, rest) else None
      | None => None
      end
  | _ => None
  end.

Definition literal (c : ascii) (s : string) : option string :=
  match s with
  | String a rest => if Ascii.eqb a c then Some rest else None
  | _ => None
  end.

(** [1[0-2]|0[1-9]|[1-9]], in the order the alternatives are tried. *)
Definition month_alts (s : string) : list (option (Z * string)) :=
  [ two_digits (λ x y, (x =? 1) && (y <=? 2)) s;
    two_digits (λ x y, (x =? 0) && (1 <=? y)) s;
    one_digit s ].

(** [3[0-1]|[1-2]\d|0[1-9]|[1-9]| [1-9]] *)
Definition day_alts (s : string) : list (option (Z * string)) :=
  [ two_digits (λ x y, (x =? 3) && (y <=? 1)) s;
    two_digits (λ x y, (1 <=? x) && (x <=? 2)) s;
    two_digits (λ x y, (x =? 0) && (1 <=? y)) s;
    one_digit s;
    literal " " s ≫= one_digit ].

(** The first alternative after which the rest of the pattern matches. *)
Fixpoint first_success {A B : Type}
    (alts : list (option A)) (k : A → option B) : option B :=
  match alts with
  | [] => None
  | a :: alts' =>
      match a ≫= k with
      | Some b => Some b
      | None => first_success alts' k
      end
  end.

Definition match_ymd (s : string) : option (Z * Z * Z * string) :=
  '(y, s1) ← four_digits s;
  s2 ← literal "-" s1;
  first_success (month_alts s2) (λ '(m, s3),
    s4 ← literal "-" s3;
    first_success (day_alts s4) (λ '(d, s5), Some (y, m, d, s5))).

Definition strptime_ymd (s : string) : option date :=
  match match_ymd s with
  | Some (y, m, d, rest) =>
      if PyStr.truthy rest then None
      else if valid_ymd y m d then Some (mkDate y m d) else None
  | None => None
  end.

End Dates.

(* ===================================================================== *)
(** * The process and its environment *)
(* ===================================================================== *)

(** A record of the taxonomy table, an observation record and a bird
    suggestion are JSON or CSV objects: dictionaries from field names to
    (string) values. *)
Abbreviation species := (gmap string string).
Abbreviation observation := (gmap string string).
Abbreviation bird := (gmap string string).

(** [d.get(key, "")] *)
Definition get_str (d : gmap string string) (key : string) : string :=
  default EmptyString (d !! key).

(** What [response.json()] can be for the taxonomy request. *)
Inductive json : Type :=
  | JsonList (rows : list species)
  | JsonOther.

(** Everything outside the process. A request either raises (in
    [requests.get] or in [raise_for_status]) or yields the response. *)
Record World : Type := mkWorld {
  (** [st.secrets] and [os.environ] *)
  secrets : gmap string string;
  environ : gmap string string;
  (** text of the response to the [n]-th request for the taxonomy *)
  taxonomy_response : nat → result string;
  (** [list(csv.DictReader(StringIO(text)))] *)
  csv_rows : string → result (list species);
  (** [response.json()] of a response with this text *)
  json_value : string → result json;
  (** [response.json()] of the observation request near coordinates
      (species code, latitude, longitude, [back]) *)
  geo_response : string → Q → Q → Z → result (list observation);
  (** the same for a region (species code, region code, [back]) *)
  region_response : string → string → Z → result (list observation);
  (** [datetime.now()] *)
  now : Dates.datetime
}.

(** What the process prints. *)
Inductive log_event : Type :=
  | LogApiKeyError
  | LogEmptyResponse
  | LogUnparsable
  | LogTimeout
  | LogInvalidKey
  | LogRateLimit
  | LogHttpError (status_code : Z)
  | LogRequestError
  | LogUnexpected
  | LogInvalidCoords.

(** The mutable state of the process: the module global [_taxonomy_cache]
    ([None] until a load succeeds), the number of taxonomy requests sent so
    far, and the printed lines. *)
Record State : Type := mkState {
  taxonomy_cache : option (list species);
  taxonomy_requests : nat;
  log : list log_event
}.

Definition initial_state : State := mkState None 0 [].

Definition print (e : log_event) (st : State) : State :=
  mkState (taxonomy_cache st) (taxonomy_requests st) (log st ++ [e]).

Definition count_request (st : State) : State :=
  mkState (taxonomy_cache st) (S (taxonomy_requests st)) (log st).

Definition set_cache (taxonomy : list species) (st : State) : State :=
  mkState (Some taxonomy) (taxonomy_requests st) (log st).

(* ===================================================================== *)
(** * [config.py] *)
(* ===================================================================== *)

Module Config.

(** [get_api_key]: the Streamlit secret if there is one, else the
    environment variable if it is set and not empty, else [ValueError]. *)
Definition get_api_key (w : World) (key_name : string) : result string :=
  match secrets w !! key_name with
  | Some key => Ok key
  | None =>
      match environ w !! key_name with
      | Some api_key => if PyStr.truthy api_key then Ok api_key else Raise ValueError
      | None => Raise ValueError
      end
  end.

Definition get_ebird_api_key (w : World) : result string :=
  get_api_key w "EBIRD_API_KEY".

Definition DEFAULT_DAYS_BACK : Z := 30.
Definition DEFAULT_YEARS_BACK : Z := 5.

End Config.

(* ===================================================================== *)
(** * [ebird_client.py] *)
(* ===================================================================== *)

Module Ebird.
Import PyStr.

(** ** Taxonomy index: [_load_taxonomy] *)

(** The body of the [try] block of [_load_taxonomy]. *)
Definition fetch_taxonomy (w : World) (st : State)
    : result (option (list species)) * State :=
  let response := taxonomy_response w (taxonomy_requests st) in
  let st := count_request st in
  match response with
  | Raise e => (Raise e, st)
  | Ok text =>
      if negb (truthy text) || negb (truthy (strip text))
      then (Ok None, print LogEmptyResponse st)
      else
        match csv_rows w text with
        | Ok (row :: rows) =>
            (Ok (Some (row :: rows)), set_cache (row :: rows) st)
        | Ok [] | Raise _ =>
            match json_value w text with
            | Ok (JsonList (row :: rows)) =>
                (Ok (Some (row :: rows)), set_cache (row :: rows) st)
            | Ok (JsonList []) | Ok JsonOther | Raise ValueError =>
                (Ok None, print LogUnparsable st)
            | Raise e => (Raise e, st)
            end
        end
  end.

Definition _load_taxonomy (w : World) (st : State)
    : result (option (list species)) * State :=
  match taxonomy_cache st with
  | Some taxonomy => (Ok (Some taxonomy), st)
  | None =>
      match Config.get_ebird_api_key w with
      | Raise ValueError => (Ok None, print LogApiKeyError st)
      | Raise e => (Raise e, st)
      | Ok api_key =>
          match fetch_taxonomy w st with
          | (Ok r, st) => (Ok r, st)
          | (Raise Timeout, st) => (Ok None, print LogTimeout st)
          | (Raise (HTTPError status_code), st) =>
              (Ok None,
               print (if (status_code =? 401)%Z then LogInvalidKey
                      else if (status_code =? 429)%Z then LogRateLimit
                      else LogHttpError status_code) st)
          | (Raise RequestException, st) => (Ok None, print LogRequestError st)
          | (Raise _, st) => (Ok None, print LogUnexpected st)
          end
      end
  end.

(** ** Name resolver: [get_species_code] *)

(** The first of [fields] that the record has with a non-empty value. *)
Fixpoint first_field (fields : list string) (sp : species) : string :=
  match fields with
  | [] => EmptyString
  | field :: fields' =>
      match sp !! field with
      | Some v => if truthy v then v else first_field fields' sp
      | None => first_field fields' sp
      end
  end.

Definition get_com_name : species → string :=
  first_field ["comName"; "COMMON_NAME"; "common_name"; "Common Name"; "commonName"].

Definition get_sci_name : species → string :=
  first_field ["sciName"; "SCIENTIFIC_NAME"; "scientific_name"; "Scientific Name"; "sciName"].

Definition get_species_code_field : species → string :=
  first_field ["speciesCode"; "SPECIES_CODE"; "species_code"; "Species Code"; "speciesCode"].

(** The loop shared by strategies 1, 2 and 4: the code of the first record
    that passes [test] and has a code. *)
Fixpoint first_code (test : species → bool) (taxonomy : list species)
    : option string :=
  match taxonomy with
  | [] => None
  | sp :: rest =>
      if test sp then
        let code := get_species_code_field sp in
        if truthy code then Some code else first_code test rest
      else first_code test rest
  end.

(** An element of [matches]: [(len(com_name), code, com_name)]. *)
Record partial_match : Type := mkMatch {
  match_len : Z;
  match_code : string;
  match_name : string
}.

Definition is_partial (bird_name_lower com_name : string) : bool :=
  contains bird_name_lower com_name || contains com_name bird_name_lower.

(** The loop of strategy 3. *)
Fixpoint partial_matches (bird_name_lower : string) (taxonomy : list species)
    : list partial_match :=
  match taxonomy with
  | [] => []
  | sp :: rest =>
      let com_name := lower (get_com_name sp) in
      if is_partial bird_name_lower com_name then
        let code := get_species_code_field sp in
        if truthy code
        then mkMatch (len com_name) code com_name
             :: partial_matches bird_name_lower rest
        else partial_matches bird_name_lower rest
      else partial_matches bird_name_lower rest
  end.

(** [matches.sort(reverse=True, key=lambda x: x[0])]: a stable sort into
    descending order of the key; matches with equal keys keep their
    order. *)
Fixpoint insert_desc (x : partial_match) (l : list partial_match)
    : list partial_match :=
  match l with
  | [] => [x]
  | y :: l' =>
      if (match_len y <=? match_len x)%Z then x :: y :: l'
      else y :: insert_desc x l'
  end.

Definition sort_desc (l : list partial_match) : list partial_match :=
  foldr insert_desc [] l.

(** Strategy 3. *)
Definition best_partial (bird_name_lower : string) (taxonomy : list species)
    : option string :=
  match sort_desc (partial_matches bird_name_lower taxonomy) with
  | m :: _ => Some (match_code m)
  | [] => None
  end.

(** [get_species_code] after the taxonomy is loaded. *)
Definition resolve (taxonomy : list species)
    (bird_name scientific_name : string) : option string :=
  let bird_name_lower := strip (lower bird_name) in
  let scientific_name_lower :=
    if truthy scientific_name then strip (lower scientific_name)
    else EmptyString in
  (* Strategy 1 *)
  match first_code
          (λ sp, String.eqb (lower (get_com_name sp)) bird_name_lower)
          taxonomy with
  | Some code => Some code
  | None =>
  (* Strategy 2 *)
  match (if truthy scientific_name_lower
         then first_code
                (λ sp, String.eqb (lower (get_sci_name sp)) scientific_name_lower)
                taxonomy
         else None) with
  | Some code => Some code
  | None =>
  (* Strategy 3 *)
  match best_partial bird_name_lower taxonomy with
  | Some code => Some code
  | None =>
  (* Strategy 4 *)
  if truthy scientific_name_lower
  then first_code
         (λ sp, is_partial scientific_name_lower (lower (get_sci_name sp)))
         taxonomy
  else None
  end end end.

Definition get_species_code (w : World) (bird_name scientific_name : string)
    (st : State) : result (option string) * State :=
  if negb (truthy bird_name) || negb (truthy (strip bird_name))
  then (Ok None, st)
  else
    match _load_taxonomy w st with
    | (Raise e, st) => (Raise e, st)
    | (Ok None, st) | (Ok (Some []), st) => (Ok None, st)
    | (Ok (Some taxonomy), st) =>
        (Ok (resolve taxonomy bird_name scientific_name), st)
    end.

(** ** Observation filter: the loop of [get_observations_by_coords] and
    [get_observations_by_region] *)

(** One round of the loop: [None] is [continue] without appending. A
    non-empty date string without any token makes [split()[0]] raise
    [IndexError]; [strptime] raises [ValueError], which the loop catches. *)
Definition keep_observation (today : Dates.datetime) (days_back years_back : Z)
    (obs : observation) : result bool :=
  let obs_date_str := get_str obs "obsDt" in
  if negb (truthy obs_date_str) then Ok false
  else
    match split obs_date_str with
    | [] => Raise IndexError
    | token :: _ =>
        match Dates.strptime_ymd token with
        | None => Ok false
        | Some d =>
            let obs_date := Dates.mkDatetime d 0 in
            let days_diff := Dates.days_between today obs_date in
            if (days_diff <=? days_back)%Z then Ok true
            else if (0 <? years_back)%Z
                    && (Dates.month d =? Dates.month (Dates.dt_date today))%Z
            then
              let years_diff :=
                (Dates.year (Dates.dt_date today) - Dates.year d)%Z in
              if (1 <=? years_diff)%Z && (years_diff <=? years_back)%Z
              then Ok true else Ok false
            else Ok false
        end
    end.

Fixpoint filter_by_date (today : Dates.datetime) (days_back years_back : Z)
    (observations filtered_obs : list observation)
    : result (list observation) :=
  match observations with
  | [] => Ok filtered_obs
  | obs :: rest =>
      match keep_observation today days_back years_back obs with
      | Raise e => Raise e
      | Ok true =>
          filter_by_date today days_back years_back rest (filtered_obs ++ [obs])
      | Ok false =>
          filter_by_date today days_back years_back rest filtered_obs
      end
  end.

(** The handlers that close both functions. A 404 is not printed. *)
Definition observations_or_empty (r : result (list observation)) (st : State)
    : result (list observation) * State :=
  match r with
  | Ok filtered_obs => (Ok filtered_obs, st)
  | Raise Timeout => (Ok [], print LogTimeout st)
  | Raise (HTTPError status_code) =>
      if (status_code =? 401)%Z then (Ok [], print LogInvalidKey st)
      else if (status_code =? 429)%Z then (Ok [], print LogRateLimit st)
      else if (status_code =? 404)%Z then (Ok [], st)
      else (Ok [], print (LogHttpError status_code) st)
  | Raise RequestException => (Ok [], print LogRequestError st)
  | Raise _ => (Ok [], print LogUnexpected st)
  end.

Definition in_range (lo x hi : Q) : bool := Qle_bool lo x && Qle_bool x hi.

Definition get_observations_by_coords (w : World) (species_code : string)
    (latitude longitude : Q) (days_back years_back : Z) (st : State)
    : result (list observation) * State :=
  if negb (truthy species_code) then (Ok [], st)
  else if negb (in_range (-90) latitude 90) || negb (in_range (-180) longitude 180)
  then (Ok [], print LogInvalidCoords st)
  else
    match Config.get_ebird_api_key w with
    | Raise ValueError => (Ok [], print LogApiKeyError st)
    | Raise e => (Raise e, st)
    | Ok api_key =>
        observations_or_empty
          match geo_response w species_code latitude longitude days_back with
          | Raise e => Raise e
          | Ok observations =>
              filter_by_date (now w) days_back years_back observations []
          end st
    end.

Definition get_observations_by_region (w : World)
    (species_code region_code : string) (days_back years_back : Z) (st : State)
    : result (list observation) * State :=
  if negb (truthy species_code) || negb (truthy region_code) then (Ok [], st)
  else
    match Config.get_ebird_api_key w with
    | Raise ValueError => (Ok [], print LogApiKeyError st)
    | Raise e => (Raise e, st)
    | Ok api_key =>
        observations_or_empty
          match region_response w species_code region_code days_back with
          | Raise e => Raise e
          | Ok observations =>
              filter_by_date (now w) days_back years_back observations []
          end st
    end.

(** ** Probability calculator: [calculate_probabilities] *)

(** A location dictionary, by the keys the function reads; a key that is
    absent is [None]. *)
Record location_dict : Type := mkLocation {
  loc_type : option string;
  loc_latitude : option Q;
  loc_longitude : option Q;
  loc_region_code : option string
}.

Definition empty_location : location_dict := mkLocation None None None None.

(** An element of [bird_suggestions]: a dictionary, or (older callers) a
    bare name. *)
Inductive suggestion : Type :=
  | BirdDict (d : bird)
  | BirdName (name : string).

Definition to_bird_dict (b : suggestion) : bird :=
  match b with
  | BirdDict d => d
  | BirdName name =>
      <["common_name" := name]> (<["scientific_name" := EmptyString]> ∅)
  end.

(** The observations of one resolved species at the location. [None] is
    the branch of a location type that is neither ["coords"] nor
    ["region"]; a key the location lacks raises [KeyError]. *)
Definition observations_at (w : World) (loc : location_dict)
    (species_code : string) (days_back years_back : Z) (st : State)
    : result (option (list observation)) * State :=
  let ty := default EmptyString (loc_type loc) in
  if String.eqb ty "coords" then
    match loc_latitude loc, loc_longitude loc with
    | Some latitude, Some longitude =>
        match get_observations_by_coords w species_code latitude longitude
                days_back years_back st with
        | (Ok observations, st) => (Ok (Some observations), st)
        | (Raise e, st) => (Raise e, st)
        end
    | _, _ => (Raise KeyError, st)
    end
  else if String.eqb ty "region" then
    match loc_region_code loc with
    | Some region_code =>
        match get_observations_by_region w species_code region_code
                days_back years_back st with
        | (Ok observations, st) => (Ok (Some observations), st)
        | (Raise e, st) => (Raise e, st)
        end
    | None => (Raise KeyError, st)
    end
  else (Ok None, st).

(** The loop that fills [observation_counts]. *)
Fixpoint count_observations (w : World) (loc : location_dict)
    (days_back years_back : Z) (bird_list : list bird)
    (observation_counts : gmap string Z) (st : State)
    : result (gmap string Z) * State :=
  match bird_list with
  | [] => (Ok observation_counts, st)
  | bird_dict :: rest =>
      let bird_name := get_str bird_dict "common_name" in
      let scientific_name := get_str bird_dict "scientific_name" in
      let zero := <[bird_name := 0%Z]> observation_counts in
      if negb (truthy bird_name) || negb (truthy (strip bird_name))
      then count_observations w loc days_back years_back rest zero st
      else
        match get_species_code w bird_name scientific_name st with
        | (Raise e, st) => (Raise e, st)
        | (Ok None, st) =>
            count_observations w loc days_back years_back rest zero st
        | (Ok (Some species_code), st) =>
            if negb (truthy species_code)
            then count_observations w loc days_back years_back rest zero st
            else
              match observations_at w loc species_code days_back years_back st with
              | (Raise e, st) => (Raise e, st)
              | (Ok None, st) =>
                  count_observations w loc days_back years_back rest zero st
              | (Ok (Some observations), st) =>
                  count_observations w loc days_back years_back rest
                    (<[bird_name := Z.of_nat (length observations)]>
                       observation_counts) st
              end
        end
  end.

(** [sum(observation_counts.values())] *)
Definition total_observations (observation_counts : gmap string Z) : Z :=
  foldl Z.add 0%Z (snd <$> map_to_list observation_counts).

Section Probabilities.
Context {F : Type} `{PyFloat F}.

(** [(count / total_observations) * 100], or [0.0]. The quotient of two
    integers is the correctly rounded quotient; for integers below 2^53 it is
    the quotient of their floats. *)
Definition probability (total_observations count : Z) : F :=
  if (0 <? total_observations)%Z
  then fmul (fdiv (from_int count) (from_int total_observations))
            (from_int 100)
  else from_int 0.

(** The last loop of [calculate_probabilities], over
    [observation_counts.items()]. *)
Definition probabilities_of (observation_counts : gmap string Z)
    : gmap string F :=
  let total := total_observations observation_counts in
  foldl (λ probabilities '(bird_name, count),
           <[bird_name := probability total count]> probabilities)
        ∅ (map_to_list observation_counts).

Definition calculate_probabilities (w : World)
    (bird_suggestions : list suggestion) (location : option location_dict)
    (days_back years_back : Z) (st : State)
    : result (gmap string F) * State :=
  match bird_suggestions with
  | [] => (Ok ∅, st)
  | _ :: _ =>
      match location with
      | None => (Raise ValueError, st)
      | Some loc =>
          match loc_type loc with
          | None => (Raise ValueError, st)
          | Some _ =>
              let bird_list := to_bird_dict <$> bird_suggestions in
              match count_observations w loc days_back years_back
                      bird_list ∅ st with
              | (Raise e, st) => (Raise e, st)
              | (Ok observation_counts, st) =>
                  (Ok (probabilities_of observation_counts), st)
              end
          end
      end
  end.

End Probabilities.

End Ebird.

(* ===================================================================== *)
(** * [app.py]: the score combiner and the rank mapping of [main] *)
(* ===================================================================== *)

Module App.
Import PyStr.

(** The value stored for one bird in [combined_scores]. *)
Record score_data (F : Type) : Type := mkScore {
  combined_score : F;
  llm_rank : Z;
  llm_score : F;
  ebird_probability : F;
  ebird_score : F
}.
Arguments mkScore {F}.
Arguments combined_score {F}.
Arguments llm_rank {F}.
Arguments llm_score {F}.
Arguments ebird_probability {F}.
Arguments ebird_score {F}.

Section Combiner.
Context {F : Type} `{PyFloat F}.

(** [(6 - llm_rank) / 5.0] *)
Definition rank_score (llm_rank : Z) : F :=
  fdiv (from_int (6 - llm_rank)) (from_int 5).

(** [(llm_score * llm_weight) + (ebird_score * ebird_weight)], then
    [* 100.0]. *)
Definition combine (llm_score ebird_score llm_weight ebird_weight : F) : F :=
  fmul (fadd (fmul llm_score llm_weight) (fmul ebird_score ebird_weight))
       (from_int 100).

(** The body of the loop of [calculate_combined_scores] for a name that
    is not empty. *)
Definition score_of (ebird_probabilities : gmap string F)
    (llm_ranks : gmap string Z) (llm_weight ebird_weight : F)
    (common_name : string) : score_data F :=
  let llm_rank := default 5%Z (llm_ranks !! common_name) in
  let llm_score := rank_score llm_rank in
  let ebird_prob := default (from_int 0) (ebird_probabilities !! common_name) in
  let ebird_score := fdiv ebird_prob (from_int 100) in
  {| combined_score := combine llm_score ebird_score llm_weight ebird_weight;
     llm_rank := llm_rank;
     llm_score := fmul llm_score (from_int 100);
     ebird_probability := ebird_prob;
     ebird_score := fmul ebird_score (from_int 100) |}.

(** One round of the loop of [calculate_combined_scores]. *)
Definition score_step (ebird_probabilities : gmap string F)
    (llm_ranks : gmap string Z) (llm_weight ebird_weight : F)
    (combined_scores : gmap string (score_data F)) (bird_dict : bird)
    : gmap string (score_data F) :=
  let common_name := get_str bird_dict "common_name" in
  if negb (truthy common_name) then combined_scores
  else <[common_name := score_of ebird_probabilities llm_ranks
                                 llm_weight ebird_weight common_name]>
         combined_scores.

Definition calculate_combined_scores (bird_suggestions : list bird)
    (ebird_probabilities : gmap string F) (llm_ranks : gmap string Z)
    (llm_weight ebird_weight : F) : gmap string (score_data F) :=
  foldl (score_step ebird_probabilities llm_ranks llm_weight ebird_weight)
        ∅ bird_suggestions.

End Combiner.

(** [enumerate(l, start)] *)
Fixpoint enumerate {A : Type} (start : Z) (l : list A) : list (Z * A) :=
  match l with
  | [] => []
  | x :: l' => (start, x) :: enumerate (start + 1) l'
  end.

(** One round of the loop of [main] that builds the rank mapping. *)
Definition rank_step (llm_ranks : gmap string Z) (entry : Z * bird)
    : gmap string Z :=
  let '(idx, bird_dict) := entry in
  let common_name := get_str bird_dict "common_name" in
  if truthy common_name then <[common_name := idx]> llm_ranks else llm_ranks.

(** The rank mapping built in [main]: name to 1-based position. *)
Definition build_llm_ranks (bird_suggestions : list bird) : gmap string Z :=
  foldl rank_step ∅ (enumerate 1 bird_suggestions).

End App.

(* ===================================================================== *)
(** * [mistral_client.py] *)
(* ===================================================================== *)

Module Mistral.
Import PyStr.

(** ** The regular expressions of the parser, on the ASCII range *)

(** [\d] *)
Definition is_digit (c : ascii) : bool :=
  let n := N_of_ascii c in ((48 <=? n) && (n <=? 57))%N.

(** [\w]: letters, digits and the underscore. *)
Definition is_word (c : ascii) : bool :=
  let n := N_of_ascii c in
  (((48 <=? n) && (n <=? 57)) || ((65 <=? n) && (n <=? 90))
   || ((97 <=? n) && (n <=? 122)) || (n =? 95))%N.

Fixpoint drop_digits (s : string) : string :=
  match s with
  | EmptyString => EmptyString
  | String c s' => if is_digit c then drop_digits s' else s
  end.

(** [re.sub(r'^\d+[\.\)]\s*', '', line)]: a leading number, followed by a
    full stop or a closing parenthesis, is removed with the whitespace after
    it. *)
Definition strip_numbering (line : string) : string :=
  match line with
  | String c _ =>
      if is_digit c then
        match drop_digits line with
        | String p rest =>
            if Ascii.eqb p "." || Ascii.eqb p ")" then lstrip rest else line
        | EmptyString => line
        end
      else line
  | EmptyString => line
  end.

(** [re.sub] of a negated character class by the empty string: the
    characters of the class are kept. *)
Fixpoint keep_chars (ok : ascii → bool) (s : string) : string :=
  match s with
  | EmptyString => EmptyString
  | String c s' => if ok c then String c (keep_chars ok s') else keep_chars ok s'
  end.

(** The class of [[^\w\s-]]. *)
Definition name_char (c : ascii) : bool :=
  is_word c || is_space c || Ascii.eqb c "-".

(** The class of [[^\w\s]]. *)
Definition scientific_char (c : ascii) : bool := is_word c || is_space c.

(** [s.split(sep)] for a separator of one character. *)
Fixpoint split_on (sep : ascii) (s : string) : list string :=
  match s with
  | EmptyString => [EmptyString]
  | String c s' =>
      if Ascii.eqb c sep then EmptyString :: split_on sep s'
      else match split_on sep s' with
           | part :: parts => String c part :: parts
           | [] => [String c EmptyString]
           end
  end.

(** [re.split(r'[,:;]', s)[0]] *)
Fixpoint before_separator (s : string) : string :=
  match s with
  | EmptyString => EmptyString
  | String c s' =>
      if Ascii.eqb c "," || Ascii.eqb c ":" || Ascii.eqb c ";" then EmptyString
      else String c (before_separator s')
  end.

(** [any(skip in s for skip in words)] *)
Definition mentions (words : list string) (s : string) : bool :=
  existsb (λ skip, contains skip s) words.

Definition make_bird (common_name scientific_name : string) : bird :=
  {[ "common_name" := common_name; "scientific_name" := scientific_name ]}.

(** ** [parse_structured_bird_suggestions] *)

(** The branch of a line with a pipe: [None] when the branch falls through
    to the fallback. *)
Definition parse_piped (line_clean : string) : option bird :=
  if contains "|" line_clean then
    match strip <$> split_on "|" line_clean with
    | part0 :: part1 :: _ =>
        let common_name := strip (keep_chars name_char (strip part0)) in
        let scientific_name := strip (keep_chars scientific_char (strip part1)) in
        if truthy common_name && (2 <? len common_name)%Z
        then Some (make_bird common_name scientific_name)
        else None
    | _ => None
    end
  else None.

Definition parse_fallback (line_clean : string) : option bird :=
  let common_name := strip (before_separator line_clean) in
  let common_name := strip (keep_chars name_char common_name) in
  if truthy common_name && (2 <? len common_name)%Z
     && negb (mentions ["format"; "example"; "important"; "return"]
                       (lower common_name))
  then Some (make_bird common_name EmptyString)
  else None.

(** One round of the loop: the bird the line adds, if any. *)
Definition parse_line (line : string) : option bird :=
  let line := strip line in
  if negb (truthy line) then None
  else if mentions ["description:"; "location:"; "date:"; "top 5"; "important:"]
                   (lower line)
  then None
  else
    let line_clean := strip (strip_numbering line) in
    match parse_piped line_clean with
    | Some b => Some b
    | None => parse_fallback line_clean
    end.

Definition newline : ascii := "010".

Definition parse_structured_bird_suggestions (content : string) : list bird :=
  take 5 (omap parse_line (split_on newline content)).

(** ** [get_bird_suggestions] *)

(** The language-model service. A request, made with an API key for a model
    with a prompt that is built from the description and the context, either
    raises or is answered with a status code; [content] is then what
    [response.json()] and [data["choices"][0]["message"]["content"]] yield
    or raise. *)
Record response : Type := mkResponse {
  status_code : Z;
  content : result string
}.

Record Service : Type := mkService {
  post : string → string → string → string → result response
}.

(** The returned dictionary. *)
Record suggestions : Type := mkSuggestions {
  suggestion_list : list bird;
  model_used : string
}.

Definition models_to_try : list string :=
  ["mistral-large-latest"; "mistral-medium-latest"; "mistral-small-latest";
   "mistral-tiny"].

(** The three ways a round of the loop over the models ends. *)
Inductive round : Type :=
  | Return (r : suggestions)
  | Continue
  | Raised (e : exn).

(** The two handlers of the loop: an [HTTPError] is raised again unless its
    status is 404 or 400; any other exception moves on to the next model,
    or, for the last model, is replaced by an [Exception]. *)
Definition handle (model : string) (e : exn) : round :=
  match e with
  | HTTPError status =>
      if (status =? 404)%Z || (status =? 400)%Z then Continue
      else Raised (HTTPError status)
  | _ =>
      if String.eqb model (List.last models_to_try EmptyString)
      then Raised OtherException
      else Continue
  end.

(** [while len(l) < 5: l.append(empty)], then [l[:5]]. *)
Definition pad_to_five (birds : list bird) : list bird :=
  take 5 (birds ++ replicate (5 - length birds)
                             (make_bird EmptyString EmptyString)).

Definition try_model (s : Service) (api_key model description context_str : string)
    : round :=
  match post s api_key model description context_str with
  | Raise e => handle model e
  | Ok r =>
      if (status_code r =? 404)%Z || (status_code r =? 400)%Z then Continue
      else if (400 <=? status_code r)%Z && (status_code r <? 600)%Z
      then handle model (HTTPError (status_code r))
      else
        match content r with
        | Raise e => handle model e
        | Ok text =>
            match parse_structured_bird_suggestions (strip text) with
            | [] => Continue
            | bird_suggestions =>
                Return (mkSuggestions (pad_to_five bird_suggestions) model)
            end
        end
  end.

Fixpoint try_models (s : Service) (api_key : string) (models : list string)
    (description context_str : string) : result suggestions :=
  match models with
  | [] => Raise OtherException
  | model :: rest =>
      match try_model s api_key model description context_str with
      | Return r => Ok r
      | Continue => try_models s api_key rest description context_str
      | Raised e => Raise e
      end
  end.

(** ["\n".join(parts)] *)
Fixpoint join_lines (parts : list string) : string :=
  match parts with
  | [] => EmptyString
  | [part] => part
  | part :: rest => part +:+ String newline (join_lines rest)
  end.

Definition get_bird_suggestions (w : World) (s : Service)
    (description location_info date_info : string) : result suggestions :=
  if negb (truthy description) || negb (truthy (strip description))
  then Raise ValueError
  else
    match Config.get_api_key w "MISTRAL_API_KEY" with
    | Raise ValueError => Raise OtherException
    | Raise e => Raise e
    | Ok api_key =>
        let context_parts :=
          (if truthy location_info then ["Location: " +:+ location_info] else [])
          ++ (if truthy date_info then ["Date: " +:+ date_info] else []) in
        let context_str := join_lines context_parts in
        try_models s api_key models_to_try description context_str
    end.

End Mistral.

(* ===================================================================== *)
(** * [app.py]: the steps of [main] between the suggestions and the scores *)
(* ===================================================================== *)

Module Main.
Import PyStr Ebird App.

(** [[b for b in bird_suggestions if b and b.get("common_name")]] *)
Definition valid_suggestions (bird_suggestions : list bird) : list bird :=
  List.filter (λ b, truthy (get_str b "common_name")) bird_suggestions.

(** How the steps end: with one of the error messages, after which [main]
    returns, or with the mappings that the display reads. *)
Inductive scoring (F : Type) : Type :=
  | CouldNotGenerate
  | NoValidSuggestions
  | InvalidInput
  | Failed (e : exn)
  | Scored (probabilities : gmap string F) (llm_ranks : gmap string Z)
           (combined_scores : gmap string (score_data F)).
Arguments CouldNotGenerate {F}.
Arguments NoValidSuggestions {F}.
Arguments InvalidInput {F}.
Arguments Failed {F} e.
Arguments Scored {F} probabilities llm_ranks combined_scores.

(** The messages for an exception that is not a [ValueError], chosen by
    the text of the exception. *)
Inductive report : Type :=
  | ApiConfigurationError
  | TaxonomyError
  | SuggestionError
  | CalculationError.

(** The handler [except Exception] around the call of
    [get_bird_suggestions]. *)
Definition report_suggestion_failure (error_msg : string) : report :=
  if contains "API key" (lower error_msg) then ApiConfigurationError
  else SuggestionError.

(** The handler [except Exception] around the call of
    [calculate_probabilities]. *)
Definition report_probability_failure (error_msg : string) : report :=
  if contains "API key" (lower error_msg) then ApiConfigurationError
  else if contains "taxonomy" (lower error_msg) then TaxonomyError
  else CalculationError.

Section Steps.
Context {F : Type} `{PyFloat F}.

(** From the suggestions of the language model to the combined scores:
    a list that is empty or has no name at all is refused, the suggestions
    without a name are dropped, the probabilities are calculated (a
    [ValueError] is reported as invalid input, any other exception as a
    failure), the ranks are the positions in the list that is left, and the
    scores are combined. *)
Definition score_suggestions (w : World) (bird_suggestions : list bird)
    (location : option location_dict) (days_back years_back : Z)
    (llm_weight ebird_weight : F) (st : State) : scoring F * State :=
  if match bird_suggestions with [] => true | _ :: _ => false end
     || forallb (λ b, negb (truthy (get_str b "common_name"))) bird_suggestions
  then (CouldNotGenerate, st)
  else
    match valid_suggestions bird_suggestions with
    | [] => (NoValidSuggestions, st)
    | bird_suggestions =>
        match calculate_probabilities w (BirdDict <$> bird_suggestions) location
                days_back years_back st with
        | (Raise ValueError, st) => (InvalidInput, st)
        | (Raise e, st) => (Failed e, st)
        | (Ok probabilities, st) =>
            let llm_ranks := build_llm_ranks bird_suggestions in
            (Scored probabilities llm_ranks
               (calculate_combined_scores bird_suggestions probabilities
                  llm_ranks llm_weight ebird_weight), st)
        end
    end.

End Steps.

End Main.
(* ===================================================================== *)
(** * Concrete data for the examples *)
(* ===================================================================== *)

Module Scenario.
Import Ebird.

Definition wren : species :=
  {[ "comName" := "Wren"; "speciesCode" := "wren1" ]}.

Definition carolina_wren : species :=
  {[ "comName" := "Carolina Wren"; "sciName" := "Thryothorus ludovicianus";
     "speciesCode" := "carwre" ]}.

Definition house_wren : species :=
  {[ "comName" := "House Wren"; "sciName" := "Troglodytes aedon";
     "speciesCode" := "houwre" ]}.

(** A row whose common name carries a leading blank. *)
Definition padded_wren : species :=
  {[ "comName" := " Wren"; "speciesCode" := "wren1" ]}.

(** Noon of 2 May 2024. *)
Definition noon : Dates.datetime :=
  Dates.mkDatetime (Dates.mkDate 2024 5 2) 43200000000.

(** A world with an API key in the environment, in which every taxonomy
    request is answered by a CSV document with the given rows and the
    observation requests by the given records. *)
Definition serving (rows : list species) (observations : list observation)
    : World :=
  {| secrets := ∅;
     environ := {[ "EBIRD_API_KEY" := "secret" ]};
     taxonomy_response := λ _, Ok "SPECIES_CODE,COMMON_NAME";
     csv_rows := λ _, Ok rows;
     json_value := λ _, Raise ValueError;
     geo_response := λ _ _ _ _, Ok observations;
     region_response := λ _ _ _, Ok observations;
     now := noon |}.

(** The same world, except that the first taxonomy request times out. *)
Definition flaky (rows : list species) : World :=
  {| secrets := ∅;
     environ := {[ "EBIRD_API_KEY" := "secret" ]};
     taxonomy_response :=
       λ n, match n with 0 => Raise Timeout | S _ => Ok "SPECIES_CODE,COMMON_NAME" end;
     csv_rows := λ _, Ok rows;
     json_value := λ _, Raise ValueError;
     geo_response := λ _ _ _ _, Ok [];
     region_response := λ _ _ _, Ok [];
     now := noon |}.

Definition seen (obs_dt : string) : observation :=
  {[ "obsDt" := obs_dt; "speciesCode" := "carwre" ]}.

Definition two_wrens : list bird :=
  [ {[ "common_name" := "Carolina Wren";
       "scientific_name" := "Thryothorus ludovicianus" ]};
    {[ "common_name" := "House Wren";
       "scientific_name" := "Troglodytes aedon" ]} ].


End Scenario.

(* ===================================================================== *)
(** * The vocabulary of the properties *)
(* ===================================================================== *)

(** ** The name resolver *)

Section ResolverTerms.
Import PyStr Ebird.

(** An entry can be returned only if it carries a species code. *)
Definition has_code (sp : species) : Prop :=
  truthy (get_species_code_field sp) = true.

(** [x] is at index [i] of [l], has [P], and no earlier element has. *)
Definition first_at {A : Type} (P : A → Prop) (l : list A) (i : nat) (x : A)
    : Prop :=
  l !! i = Some x ∧ P x ∧ ∀ j y, j < i → l !! j = Some y → ¬ P y.

(** An entry that strategy 3 collects. *)
Definition partial_candidate (bird_name_lower : string) (sp : species) : Prop :=
  is_partial bird_name_lower (lower (get_com_name sp)) = true ∧ has_code sp.

Definition com_len (sp : species) : Z := len (lower (get_com_name sp)).

Definition match_of (sp : species) : partial_match :=
  mkMatch (com_len sp) (get_species_code_field sp) (lower (get_com_name sp)).

(** The head of the sorted list without sorting: the earliest element
    whose key is the largest. *)
Fixpoint earliest_longest (l : list partial_match) : option partial_match :=
  match l with
  | [] => None
  | x :: l' =>
      match earliest_longest l' with
      | Some y => if (match_len y <=? match_len x)%Z then Some x else Some y
      | None => Some x
      end
  end.

(** What strategy 3 selects, in terms of the taxonomy: the entry at the
    least index among the candidates of greatest length. *)
Definition longest_first (n : string) (taxonomy : list species)
    (i : nat) (sp : species) : Prop :=
  taxonomy !! i = Some sp ∧ partial_candidate n sp ∧
  (∀ j sp', taxonomy !! j = Some sp' → partial_candidate n sp' →
            (com_len sp' ≤ com_len sp)%Z) ∧
  (∀ j sp', j < i → taxonomy !! j = Some sp' → partial_candidate n sp' →
            (com_len sp' < com_len sp)%Z).

(** The four strategies on the normalised names, as the design names
    them. A strategy on the scientific name runs only if one is given. *)
Definition exact_common (n : string) (taxonomy : list species) : option string :=
  first_code (λ sp, String.eqb (lower (get_com_name sp)) n) taxonomy.

Definition exact_scientific (s : string) (taxonomy : list species)
    : option string :=
  if truthy s
  then first_code (λ sp, String.eqb (lower (get_sci_name sp)) s) taxonomy
  else None.

Definition partial_scientific (s : string) (taxonomy : list species)
    : option string :=
  if truthy s
  then first_code (λ sp, is_partial s (lower (get_sci_name sp))) taxonomy
  else None.

(** Two taxonomy rows that every strategy treats alike when the names are
    compared after [norm]. *)
Definition same_entry (norm : string → string) (sp sp' : species) : Prop :=
  norm (get_com_name sp) = norm (get_com_name sp') ∧
  norm (get_sci_name sp) = norm (get_sci_name sp') ∧
  get_species_code_field sp = get_species_code_field sp'.

(** "The taxonomy side of every comparison is normalised by [norm]": the
    resolver cannot tell apart two taxonomies whose rows agree after
    [norm]. *)
Definition taxonomy_side_normalised (norm : string → string) : Prop :=
  ∀ taxonomy taxonomy' bird_name scientific_name,
    Forall2 (same_entry norm) taxonomy taxonomy' →
    resolve taxonomy bird_name scientific_name
    = resolve taxonomy' bird_name scientific_name.

End ResolverTerms.

(** ** The taxonomy index *)

Section LoaderTerms.
Import PyStr Ebird.

(** The outcome of a load attempt: what it returned, and what it did to
    the state [st]. A success caches the (non-empty) table; a failure
    returns [None], prints one line and leaves the cache unset. *)
Definition load_outcome (st : State) (r : option (list species)) (st' : State)
    : Prop :=
  taxonomy_requests st ≤ taxonomy_requests st' ≤ S (taxonomy_requests st) ∧
  match r with
  | Some taxonomy =>
      taxonomy ≠ [] ∧ taxonomy_cache st' = Some taxonomy ∧ log st' = log st
  | None =>
      taxonomy_cache st' = None ∧ ∃ e, log st' = log st ++ [e]
  end.

End LoaderTerms.

(** ** The score combiner *)

Section CombinerTerms.
Import PyStr App.

(** The names of a candidate list, in order. *)
Definition names (bird_suggestions : list bird) : list string :=
  (λ bird_dict, get_str bird_dict "common_name") <$> bird_suggestions.

End CombinerTerms.

(** ** The scenario of the design document *)

Section ScenarioTerms.
Import PyStr App Scenario.


End ScenarioTerms.

(** ** The probability calculator *)

Section ProbabilityTerms.
Import PyStr Ebird.

(** [sum] of a list of numbers. *)
Definition Qsum (l : list Q) : Q := foldr Qplus 0%Q l.






End ProbabilityTerms.

(** ** The pipeline *)

Section PipelineTerms.
Import PyStr Ebird.


End PipelineTerms.

(** ** The observation filter *)

Section FilterTerms.
Import PyStr Ebird.
Local Open Scope Z_scope.

(** The two rules of the temporal window. *)
Definition recent (today : Dates.datetime) (days_back : Z) (d : Dates.date)
    : Prop :=
  Dates.days_between today (Dates.mkDatetime d 0) ≤ days_back.

Definition anniversary (today : Dates.datetime) (years_back : Z) (d : Dates.date)
    : Prop :=
  0 < years_back ∧
  Dates.month d = Dates.month (Dates.dt_date today) ∧
  1 ≤ Dates.year (Dates.dt_date today) - Dates.year d ≤ years_back.

(** The date of a record: the first token of its date string, parsed. *)
Definition observed_date (obs : observation) : option Dates.date :=
  match split (get_str obs "obsDt") with
  | token :: _ => Dates.strptime_ymd token
  | [] => None
  end.

(** A date string that is not empty but has no token: all whitespace. *)
Definition blank_date (obs : observation) : Prop :=
  truthy (get_str obs "obsDt") = true ∧ split (get_str obs "obsDt") = [].

(** The records the loop appends. *)
Definition keeps (today : Dates.datetime) (days_back years_back : Z)
    (obs : observation) : bool :=
  match keep_observation today days_back years_back obs with
  | Ok true => true
  | _ => false
  end.

End FilterTerms.


(** ** The taxonomy index across a call *)

Section IndexTerms.
Import PyStr Ebird.

(** What a step may do to the taxonomy index: send at most [n] requests,
    and none once the table is cached, which then stays as it is. *)
Definition advance (n : nat) (st st' : State) : Prop :=
  taxonomy_requests st ≤ taxonomy_requests st' ≤ taxonomy_requests st + n ∧
  ∀ taxonomy, taxonomy_cache st = Some taxonomy →
              taxonomy_cache st' = Some taxonomy ∧
              taxonomy_requests st' = taxonomy_requests st.

Definition non_negative (observation_counts : gmap string Z) : Prop :=
  map_Forall (λ _ count, (0 ≤ count)%Z) observation_counts.



Definition philadelphia : location_dict :=
  mkLocation (Some "coords") (Some 40%Q) (Some (-75)%Q) None.


End IndexTerms.

(** ** The parser of the suggestions *)

Section ParserTerms.
Import PyStr Mistral.

(** Every character of the string is of the class. *)
Fixpoint all_chars (ok : ascii → bool) (s : string) : bool :=
  match s with
  | EmptyString => true
  | String c s' => ok c && all_chars ok s'
  end.

(** The class of the characters other than the colon. *)
Definition no_colon (c : ascii) : bool := negb (Ascii.eqb c ":").

(** A string without whitespace at either end. *)
Definition trimmed (s : string) : Prop := strip s = s.

(** A common name as the parser lets it through: more than two characters,
    each a word character, whitespace or a hyphen, and no whitespace at
    either end. *)
Definition clean_name (s : string) : Prop :=
  (2 < len s)%Z ∧ trimmed s ∧ all_chars name_char s = true.

(** An entry as the parser builds it. *)
Definition parsed_entry (b : bird) : Prop :=
  ∃ common_name scientific_name,
    b = make_bird common_name scientific_name ∧
    clean_name common_name ∧
    trimmed scientific_name ∧
    all_chars scientific_char scientific_name = true.

(** The entry the loop of [get_bird_suggestions] pads with. *)
Definition padding : bird := make_bird EmptyString EmptyString.

(** A line in the format that the prompt asks for. *)
Definition numbered_line (number common_name scientific_name : string) : string :=
  number +:+ ". " +:+ common_name +:+ " | " +:+ scientific_name.

(** A service that answers every model with the same status and text. *)
Definition answering (status : Z) (text : string) : Service :=
  mkService (λ _ _ _ _, Ok (mkResponse status (Ok text))).

(** A service whose first model answers with a status and whose other
    models answer 200 with a text. *)
Definition first_fails (status : Z) (text : string) : Service :=
  mkService (λ _ model _ _,
    if String.eqb model "mistral-large-latest"
    then Ok (mkResponse status (Ok EmptyString))
    else Ok (mkResponse 200 (Ok text))).

(** A world with both API keys in the environment. *)
Definition with_keys : World :=
  {| secrets := ∅;
     environ := {[ "EBIRD_API_KEY" := "secret"; "MISTRAL_API_KEY" := "secret" ]};
     taxonomy_response := taxonomy_response (Scenario.serving [] []);
     csv_rows := λ _, Ok [Scenario.carolina_wren; Scenario.house_wren];
     json_value := json_value (Scenario.serving [] []);
     geo_response := λ _ _ _ _, Ok [Scenario.seen "2024-05-01 10:00"];
     region_response := λ _ _ _, Ok [Scenario.seen "2024-05-01 10:00"];
     now := Scenario.noon |}.

End ParserTerms.

(** ** Sample answers of the language model *)

Section AnswerTerms.
Import PyStr Mistral.

(** Two lines in the requested format. *)
Definition two_lines : string :=
  numbered_line "1" "Carolina Wren" "Thryothorus ludovicianus"
  +:+ String newline (numbered_line "2" "House Wren" "Troglodytes aedon").

(** The class of the characters other than the capital letters. *)
Definition not_upper (c : ascii) : bool :=
  let n := N_of_ascii c in negb ((65 <=? n) && (n <=? 90))%N.

End AnswerTerms.
(* ===================================================================== *)
(** * Properties *)
(* ===================================================================== *)

(** ** Strings *)

Section StringFacts.
Import PyStr.

Lemma is_space_lower_char c : is_space (lower_char c) = is_space c.
Proof. by destruct c as [[] [] [] [] [] [] [] []]. Qed.

Lemma truthy_lower s : truthy (lower s) = truthy s.
Proof. by destruct s. Qed.

Lemma lower_lstrip s : lower (lstrip s) = lstrip (lower s).
Proof.
  induction s as [|c s IH]; simpl; [done|].
  rewrite is_space_lower_char. by destruct (is_space c).
Qed.

Lemma lower_rstrip s : lower (rstrip s) = rstrip (lower s).
Proof.
  induction s as [|c s IH]; simpl; [done|].
  rewrite <- IH, is_space_lower_char.
  destruct (rstrip s); simpl; [by destruct (is_space c)|done].
Qed.

Lemma lower_strip s : lower (strip s) = strip (lower s).
Proof. unfold strip. by rewrite lower_rstrip, lower_lstrip. Qed.

Lemma truthy_strip_lower s : truthy (strip (lower s)) = truthy (strip s).
Proof. by rewrite <- lower_strip, truthy_lower. Qed.

Lemma truthy_strip s : truthy (strip s) = true → truthy s = true.
Proof. by destruct s. Qed.

Lemma truthy_true s : truthy s = true ↔ s ≠ EmptyString.
Proof. by destruct s. Qed.

Lemma truthy_false s : truthy s = false ↔ s = EmptyString.
Proof. by destruct s. Qed.

End StringFacts.

(** ** Name resolver *)

Section ResolverFacts.
Import PyStr Ebird.

Lemma first_at_here {A : Type} (P : A → Prop) x l : P x → first_at P (x :: l) 0 x.
Proof. intros HP. repeat split; [done|]. intros j y Hj. lia. Qed.

Lemma first_at_later {A : Type} (P : A → Prop) x l i y :
  ¬ P x → first_at P l i y → first_at P (x :: l) (S i) y.
Proof.
  intros Hx (Hi & HP & Hlt). repeat split; [done..|].
  intros [|j] z Hj Hz; simplify_eq/=; [done|].
  apply (Hlt j z); [lia|done].
Qed.

Lemma first_at_cons_inv {A : Type} (P : A → Prop) x l i y :
  first_at P (x :: l) i y →
  (i = 0 ∧ y = x ∧ P x) ∨ (∃ i', i = S i' ∧ ¬ P x ∧ first_at P l i' y).
Proof.
  intros (Hi & HP & Hlt). destruct i as [|i]; simplify_eq/=; [by left|].
  right. exists i. repeat split; [|done..|].
  - apply (Hlt 0 x); [lia|done].
  - intros j z Hj Hz. apply (Hlt (S j) z); [lia|done].
Qed.

Lemma first_at_unique {A : Type} (P : A → Prop) l i x j y :
  first_at P l i x → first_at P l j y → i = j ∧ x = y.
Proof.
  intros (Hi & HPx & Hlti) (Hj & HPy & Hltj).
  destruct (Nat.lt_trichotomy i j) as [Hlt|[->|Hlt]].
  - destruct (Hltj i x Hlt Hi HPx).
  - split; [done|congruence].
  - destruct (Hlti j y Hlt Hj HPy).
Qed.

(** The loop of strategies 1, 2 and 4 returns the code of the first entry
    that passes the test and has a code. *)
Lemma first_code_Some test taxonomy code :
  first_code test taxonomy = Some code ↔
  ∃ i sp, first_at (λ sp, test sp = true ∧ has_code sp) taxonomy i sp
          ∧ get_species_code_field sp = code.
Proof.
  induction taxonomy as [|sp rest IH]; simpl.
  { split; [done|]. by intros (i & sp & (Hi & _) & _). }
  destruct (test sp) eqn:Ht; [destruct (truthy (get_species_code_field sp)) eqn:Hc|].
  - split.
    + intros [= <-]. exists 0, sp. split; [|done]. by apply first_at_here.
    + intros (i & sp' & Hf & <-).
      apply first_at_cons_inv in Hf as [(_ & -> & _)|(i' & _ & Hn & _)]; [done|].
      destruct Hn. done.
  - rewrite IH. split.
    + intros (i & sp' & Hf & Hcode). exists (S i), sp'. split; [|done].
      apply first_at_later; [|done]. unfold has_code. intros [_ ?]. congruence.
    + intros (i & sp' & Hf & Hcode).
      apply first_at_cons_inv in Hf as [(_ & -> & _ & Hh)|(i' & _ & _ & Hf)].
      * unfold has_code in Hh. congruence.
      * by exists i', sp'.
  - rewrite IH. split.
    + intros (i & sp' & Hf & Hcode). exists (S i), sp'. split; [|done].
      apply first_at_later; [|done]. intros [? _]. congruence.
    + intros (i & sp' & Hf & Hcode).
      apply first_at_cons_inv in Hf as [(_ & -> & Hh & _)|(i' & _ & _ & Hf)].
      * congruence.
      * by exists i', sp'.
Qed.



(** *** Strategy 3: the longest partial match, the first among equals *)

(** [sort_desc] is the stable sort into descending order of the key: its
    result is a permutation of the list, is sorted, and keeps the matches of
    each key in the order they had. *)
Lemma insert_desc_perm x l : insert_desc x l ≡ₚ x :: l.
Proof.
  induction l as [|y l IH]; simpl; [done|].
  case_match; [done|]. rewrite IH. apply Permutation_swap.
Qed.

Lemma sort_desc_perm l : sort_desc l ≡ₚ l.
Proof.
  induction l as [|x l IH]; simpl; [done|].
  by rewrite insert_desc_perm, IH.
Qed.

Lemma insert_desc_sorted x l :
  StronglySorted (λ a b, (match_len b ≤ match_len a)%Z) l →
  StronglySorted (λ a b, (match_len b ≤ match_len a)%Z) (insert_desc x l).
Proof.
  induction 1 as [|y l Hl IH Hy]; simpl.
  { by repeat constructor. }
  destruct (Z.leb_spec (match_len y) (match_len x)) as [Hle|Hgt].
  - constructor; [by constructor|]. constructor; [done|].
    eapply Forall_impl; [done|]. simpl. intros z Hz. lia.
  - constructor; [done|]. rewrite insert_desc_perm. constructor; [lia|done].
Qed.

Lemma sort_desc_sorted l :
  StronglySorted (λ a b, (match_len b ≤ match_len a)%Z) (sort_desc l).
Proof.
  induction l as [|x l IH]; simpl; [constructor|]. by apply insert_desc_sorted.
Qed.

Lemma insert_desc_stable (k : Z) x l :
  filter (λ m, match_len m = k) (insert_desc x l)
  = filter (λ m, match_len m = k) (x :: l).
Proof.
  induction l as [|y l IH]; simpl; [done|].
  destruct (Z.leb_spec (match_len y) (match_len x)) as [Hle|Hgt]; [done|].
  rewrite !filter_cons in *.
  destruct (decide (match_len y = k)) as [Hy|Hy];
    destruct (decide (match_len x = k)) as [Hx|Hx]; try lia;
    by rewrite IH.
Qed.

Lemma sort_desc_stable (k : Z) l :
  filter (λ m, match_len m = k) (sort_desc l) = filter (λ m, match_len m = k) l.
Proof.
  induction l as [|x l IH]; simpl; [done|].
  by rewrite insert_desc_stable, !filter_cons, IH.
Qed.

Lemma head_insert_desc x l :
  head (insert_desc x l) =
  match head l with
  | Some y => if (match_len y <=? match_len x)%Z then Some x else Some y
  | None => Some x
  end.
Proof. destruct l as [|y l]; simpl; [done|]. by case_match. Qed.

Lemma head_sort_desc l : head (sort_desc l) = earliest_longest l.
Proof.
  induction l as [|x l IH]; simpl; [done|].
  by rewrite head_insert_desc, IH.
Qed.

Lemma best_partial_head bird_name_lower taxonomy :
  best_partial bird_name_lower taxonomy =
  match_code <$> earliest_longest (partial_matches bird_name_lower taxonomy).
Proof.
  unfold best_partial. rewrite <- head_sort_desc.
  by destruct (sort_desc _).
Qed.

Lemma partial_matches_cons n sp rest :
  partial_matches n (sp :: rest) =
  if is_partial n (lower (get_com_name sp)) && truthy (get_species_code_field sp)
  then match_of sp :: partial_matches n rest
  else partial_matches n rest.
Proof.
  simpl. destruct (is_partial _ _); simpl; [|done].
  by destruct (truthy _).
Qed.

Lemma partial_candidate_dec n sp :
  is_partial n (lower (get_com_name sp)) && truthy (get_species_code_field sp) = true
  ↔ partial_candidate n sp.
Proof. unfold partial_candidate, has_code. by rewrite andb_true_iff. Qed.

Lemma earliest_longest_matches n taxonomy m :
  earliest_longest (partial_matches n taxonomy) = Some m →
  ∃ i sp, longest_first n taxonomy i sp ∧ m = match_of sp.
Proof.
  revert m. induction taxonomy as [|sp rest IH]; intros m; [done|].
  rewrite partial_matches_cons.
  destruct (is_partial _ _ && truthy _) eqn:Hc.
  - apply partial_candidate_dec in Hc. simpl.
    destruct (earliest_longest (partial_matches n rest)) as [y|] eqn:Hy.
    + destruct (IH y eq_refl) as (i & sp' & (Hi & Hcand & Hmax & Hbefore) & ->).
      simpl. destruct (Z.leb_spec (com_len sp') (com_len sp)) as [Hle|Hgt];
        intros [= <-].
      * exists 0, sp. split; [|done]. split_and!; [done..| |].
        -- intros [|j] sp'' Hj Hc''; simplify_eq/=; [lia|].
           specialize (Hmax j sp'' Hj Hc''). lia.
        -- intros j sp'' Hj. lia.
      * exists (S i), sp'. split; [|done]. split_and!; [done..| |].
        -- intros [|j] sp'' Hj Hc''; simplify_eq/=; [lia|]. by eapply Hmax.
        -- intros [|j] sp'' Hlt Hj Hc''; simplify_eq/=; [lia|].
           apply (Hbefore j sp''); [lia|done..].
    + intros [= <-]. exists 0, sp. split; [|done]. split_and!; [done..| |].
      * intros [|j] sp'' Hj Hc''; simplify_eq/=; [lia|].
        exfalso. clear IH. revert j sp'' Hj Hc'' Hy.
        induction rest as [|sp0 rest IHr]; intros j sp'' Hj Hc''; [done|].
        rewrite partial_matches_cons.
        destruct (is_partial _ _ && truthy _) eqn:Hc0.
        { simpl. by repeat case_match. }
        destruct j as [|j]; simplify_eq/=.
        { apply partial_candidate_dec in Hc''. congruence. }
        by eapply IHr.
      * intros j sp'' Hj. lia.
  - intros Hm. destruct (IH m Hm) as (i & sp' & (Hi & Hcand & Hmax & Hbefore) & ->).
    assert (¬ partial_candidate n sp) as Hn.
    { rewrite <- partial_candidate_dec. congruence. }
    exists (S i), sp'. split; [|done]. split_and!; [done..| |].
    + intros [|j] sp'' Hj Hc''; simplify_eq/=; [done|]. by eapply Hmax.
    + intros [|j] sp'' Hlt Hj Hc''; simplify_eq/=; [done|].
      apply (Hbefore j sp''); [lia|done..].
Qed.

Lemma earliest_longest_None n taxonomy :
  earliest_longest (partial_matches n taxonomy) = None ↔
  ∀ sp, sp ∈ taxonomy → ¬ partial_candidate n sp.
Proof.
  induction taxonomy as [|sp rest IH].
  { split; [|done]. intros _ sp Hsp. by apply elem_of_nil in Hsp. }
  rewrite partial_matches_cons.
  destruct (is_partial _ _ && truthy _) eqn:Hc.
  - split.
    + simpl. by repeat case_match.
    + intros Hall. destruct (Hall sp); [left|]. by apply partial_candidate_dec.
  - rewrite IH. split.
    + intros Hall sp' [->|Hin]%elem_of_cons; [|by apply Hall].
      rewrite <- partial_candidate_dec. congruence.
    + intros Hall sp' Hin. apply Hall. by right.
Qed.

Lemma longest_first_unique n taxonomy i sp j sp' :
  longest_first n taxonomy i sp → longest_first n taxonomy j sp' →
  i = j ∧ sp = sp'.
Proof.
  intros (Hi & Hc & Hmax & Hbefore) (Hj & Hc' & Hmax' & Hbefore').
  destruct (Nat.lt_trichotomy i j) as [Hlt|[->|Hlt]].
  - specialize (Hbefore' i sp Hlt Hi Hc). specialize (Hmax j sp' Hj Hc'). lia.
  - split; [done|congruence].
  - specialize (Hbefore j sp' Hlt Hj Hc'). specialize (Hmax' i sp Hi Hc). lia.
Qed.

Lemma best_partial_Some n taxonomy code :
  best_partial n taxonomy = Some code ↔
  ∃ i sp, longest_first n taxonomy i sp ∧ get_species_code_field sp = code.
Proof.
  rewrite best_partial_head. split.
  - destruct (earliest_longest _) as [m|] eqn:Hm; [|done]. intros [= <-].
    destruct (earliest_longest_matches _ _ _ Hm) as (i & sp & Hl & ->).
    by exists i, sp.
  - intros (i & sp & Hl & <-).
    destruct (earliest_longest _) as [m|] eqn:Hm.
    + destruct (earliest_longest_matches _ _ _ Hm) as (i' & sp' & Hl' & ->).
      by destruct (longest_first_unique _ _ _ _ _ _ Hl Hl') as [_ ->].
    + destruct Hl as (Hi & Hc & _).
      rewrite earliest_longest_None in Hm. destruct (Hm sp); [|done].
      by eapply list_elem_of_lookup_2.
Qed.



(** *** The strategy chain *)

Lemma exact_common_Some n taxonomy code :
  exact_common n taxonomy = Some code ↔
  ∃ i sp, first_at (λ sp, lower (get_com_name sp) = n ∧ has_code sp) taxonomy i sp
          ∧ get_species_code_field sp = code.
Proof.
  unfold exact_common. rewrite first_code_Some.
  split; intros (i & sp & (Hi & [Ht Hc] & Hb) & Hcode); exists i, sp;
    (split; [|done]); (split_and!; [done| |done|]).
  - by apply String.eqb_eq.
  - intros j sp' Hj Hsp' [Ht' Hc']. apply (Hb j sp' Hj Hsp'). split; [|done].
    by apply String.eqb_eq.
  - by apply String.eqb_eq.
  - intros j sp' Hj Hsp' [Ht' Hc']. apply (Hb j sp' Hj Hsp'). split; [|done].
    by apply String.eqb_eq.
Qed.

Lemma exact_scientific_Some s taxonomy code :
  exact_scientific s taxonomy = Some code ↔
  s ≠ EmptyString ∧
  ∃ i sp, first_at (λ sp, lower (get_sci_name sp) = s ∧ has_code sp) taxonomy i sp
          ∧ get_species_code_field sp = code.
Proof.
  unfold exact_scientific. destruct s as [|c s]; simpl.
  { split; [done|]. by intros [? _]. }
  rewrite first_code_Some.
  split.
  - intros (i & sp & (Hi & [Ht Hc] & Hb) & Hcode). split; [done|]. exists i, sp.
    split; [|done]. split_and!; [done| |done|].
    + by apply String.eqb_eq.
    + intros j sp' Hj Hsp' [Ht' Hc']. apply (Hb j sp' Hj Hsp'). split; [|done].
      by apply String.eqb_eq.
  - intros (_ & i & sp & (Hi & [Ht Hc] & Hb) & Hcode). exists i, sp.
    split; [|done]. split_and!; [done| |done|].
    + by apply String.eqb_eq.
    + intros j sp' Hj Hsp' [Ht' Hc']. apply (Hb j sp' Hj Hsp'). split; [|done].
      by apply String.eqb_eq.
Qed.

Lemma partial_scientific_Some s taxonomy code :
  partial_scientific s taxonomy = Some code ↔
  s ≠ EmptyString ∧
  ∃ i sp, first_at (λ sp, is_partial s (lower (get_sci_name sp)) = true ∧ has_code sp)
                   taxonomy i sp
          ∧ get_species_code_field sp = code.
Proof.
  unfold partial_scientific. destruct s as [|c s]; simpl.
  { split; [done|]. by intros [? _]. }
  rewrite first_code_Some. split; [by intros ?|by intros [_ ?]].
Qed.

Lemma scientific_name_lower s :
  (if truthy s then strip (lower s) else EmptyString) = strip (lower s).
Proof. by destruct s. Qed.

Lemma union_None_l {A : Type} (my : option A) : None ∪ my = my.
Proof. by destruct my. Qed.

(** First success wins: [∪] on [option] keeps the left operand if it is
    [Some]. *)
Lemma resolve_chain taxonomy bird_name scientific_name :
  resolve taxonomy bird_name scientific_name =
  let n := strip (lower bird_name) in
  let s := strip (lower scientific_name) in
  exact_common n taxonomy ∪ (exact_scientific s taxonomy ∪
    (best_partial n taxonomy ∪ partial_scientific s taxonomy)).
Proof.
  unfold resolve, exact_common, exact_scientific, partial_scientific.
  rewrite scientific_name_lower. simpl.
  destruct (first_code _ taxonomy); [by rewrite union_Some_l|].
  rewrite union_None_l.
  destruct (truthy (strip (lower scientific_name))).
  - destruct (first_code _ taxonomy); [by rewrite union_Some_l|].
    rewrite union_None_l.
    destruct (best_partial _ _); [by rewrite union_Some_l|].
    by rewrite union_None_l.
  - rewrite union_None_l.
    by destruct (best_partial _ _).
Qed.



(** *** What the comparisons depend on *)

Lemma resolve_input_normalised taxonomy n1 s1 n2 s2 :
  strip (lower n1) = strip (lower n2) →
  strip (lower s1) = strip (lower s2) →
  resolve taxonomy n1 s1 = resolve taxonomy n2 s2.
Proof. intros Hn Hs. rewrite !resolve_chain. simpl. by rewrite Hn, Hs. Qed.

Lemma first_code_ext test test' taxonomy taxonomy' :
  Forall2 (λ sp sp', test sp = test' sp' ∧
                     get_species_code_field sp = get_species_code_field sp')
          taxonomy taxonomy' →
  first_code test taxonomy = first_code test' taxonomy'.
Proof.
  induction 1 as [|sp sp' rest rest' [Ht Hc] _ IH]; simpl; [done|].
  by rewrite Ht, Hc, IH.
Qed.

Lemma partial_matches_ext n taxonomy taxonomy' :
  Forall2 (same_entry lower) taxonomy taxonomy' →
  partial_matches n taxonomy = partial_matches n taxonomy'.
Proof.
  induction 1 as [|sp sp' rest rest' (Hn & _ & Hc) _ IH]; simpl; [done|].
  by rewrite Hn, Hc, IH.
Qed.

Lemma taxonomy_side_lower : taxonomy_side_normalised lower.
Proof.
  intros taxonomy taxonomy' bird_name scientific_name HF.
  rewrite !resolve_chain. simpl.
  unfold exact_common, exact_scientific, partial_scientific, best_partial.
  rewrite (partial_matches_ext _ _ _ HF).
  set (n := strip (lower bird_name)). set (s := strip (lower scientific_name)).
  assert (∀ (f : string → bool),
    first_code (λ sp, f (lower (get_com_name sp))) taxonomy
    = first_code (λ sp, f (lower (get_com_name sp))) taxonomy') as Hcom.
  { intros f. apply first_code_ext. eapply Forall2_impl; [done|].
    intros sp sp' (Hn & _ & Hc). by rewrite Hn. }
  assert (∀ (f : string → bool),
    first_code (λ sp, f (lower (get_sci_name sp))) taxonomy
    = first_code (λ sp, f (lower (get_sci_name sp))) taxonomy') as Hsci.
  { intros f. apply first_code_ext. eapply Forall2_impl; [done|].
    intros sp sp' (_ & Hs & Hc). by rewrite Hs. }
  rewrite (Hcom (λ c, String.eqb c n)).
  rewrite (Hsci (λ c, String.eqb c s)), (Hsci (is_partial s)).
  done.
Qed.

End ResolverFacts.

(** ** Taxonomy index *)

Section LoaderFacts.
Import PyStr Ebird.
Context (w : World).

Lemma get_api_key_raises key_name e :
  Config.get_api_key w key_name = Raise e → e = ValueError.
Proof. unfold Config.get_api_key. intros He. by repeat case_match; simplify_eq. Qed.

(** Once a load has succeeded, the cache answers: no request, no change of
    state. *)
Lemma load_cached st taxonomy :
  taxonomy_cache st = Some taxonomy →
  _load_taxonomy w st = (Ok (Some taxonomy), st).
Proof. unfold _load_taxonomy. by intros ->. Qed.

Lemma fetch_taxonomy_outcome st :
  taxonomy_cache st = None →
  match fetch_taxonomy w st with
  | (Ok r, st') => load_outcome st r st'
  | (Raise _, st') =>
      taxonomy_cache st' = None ∧ log st' = log st ∧
      taxonomy_requests st' = S (taxonomy_requests st)
  end.
Proof.
  intros Hc. unfold fetch_taxonomy, load_outcome.
  repeat case_match; simplify_eq/=; split_and?; eauto; lia.
Qed.

(** A load never raises. *)
Lemma load_uncached st :
  taxonomy_cache st = None →
  ∃ r st', _load_taxonomy w st = (Ok r, st') ∧ load_outcome st r st'.
Proof.
  intros Hc. unfold _load_taxonomy. rewrite Hc.
  destruct (Config.get_ebird_api_key w) as [key|e] eqn:Hkey.
  - pose proof (fetch_taxonomy_outcome st Hc) as Hf.
    destruct (fetch_taxonomy w st) as [[r|e] st'].
    + by exists r, st'.
    + destruct Hf as (Hc' & Hl & Hn).
      destruct e; eexists None, _; (split; [done|]); unfold load_outcome;
        simpl; rewrite Hl, Hn; split_and?; eauto.
  - apply get_api_key_raises in Hkey as ->.
    eexists None, _. split; [done|]. unfold load_outcome. simpl.
    split_and?; eauto.
Qed.


(** ** The resolver on top of the index *)

Lemma blank_name_guard bird_name :
  negb (truthy bird_name) || negb (truthy (strip bird_name))
  = negb (truthy (strip (lower bird_name))).
Proof.
  rewrite truthy_strip_lower. destruct bird_name; [done|]. done.
Qed.

Lemma get_species_code_blank bird_name scientific_name st :
  truthy (strip bird_name) = false →
  get_species_code w bird_name scientific_name st = (Ok None, st).
Proof.
  intros Hb. unfold get_species_code.
  by rewrite blank_name_guard, truthy_strip_lower, Hb.
Qed.




Lemma get_species_code_input_normalised n1 s1 n2 s2 st :
  strip (lower n1) = strip (lower n2) →
  strip (lower s1) = strip (lower s2) →
  get_species_code w n1 s1 st = get_species_code w n2 s2 st.
Proof.
  intros Hn Hs. unfold get_species_code.
  rewrite !blank_name_guard, Hn. case_match; [done|].
  destruct (_load_taxonomy w st) as [[[[|sp rest]|]|] st']; [done| |done..].
  by rewrite (resolve_input_normalised _ n1 s1 n2 s2).
Qed.

End LoaderFacts.

(** ** The name resolver and the taxonomy index: the claims *)

Section ResolverClaims.
Import PyStr Ebird Scenario.





(** C9, the claim as stated fails: the resolver does not trim the taxonomy
    side. The rows " Wren" and "Wren" agree once trimmed and lower-cased,
    yet "wren" resolves to "Wren" through the second and to "Carolina Wren"
    through the first. *)
Lemma taxonomy_side_not_trimmed :
  ¬ taxonomy_side_normalised (λ s, strip (lower s)).
Proof.
  intros H.
  specialize (H [padded_wren; carolina_wren] [wren; carolina_wren] "wren" "").
  assert (resolve [padded_wren; carolina_wren] "wren" "" = Some "carwre") as E1
    by (by vm_compute).
  assert (resolve [wren; carolina_wren] "wren" "" = Some "wren1") as E2
    by (by vm_compute).
  rewrite E1, E2 in H.
  assert (Some "carwre" = Some "wren1" → False) as Hne by (intros [=]).
  apply Hne, H.
  repeat constructor; by vm_compute.
Qed.

(** C9, amended. The resolver trims and lower-cases its input: two inputs
    with the same trimmed lower-case form resolve alike. The names of the
    taxonomy are lower-cased but not trimmed: two taxonomies whose rows agree
    once lower-cased resolve alike. A common name that is empty or all
    whitespace yields [None] in every world and leaves the state as it was:
    nothing is requested, cached or printed. *)
Theorem input_trimmed_taxonomy_lowered :
  (∀ w n1 s1 n2 s2 st,
     strip (lower n1) = strip (lower n2) →
     strip (lower s1) = strip (lower s2) →
     get_species_code w n1 s1 st = get_species_code w n2 s2 st) ∧
  taxonomy_side_normalised lower ∧
  (∀ w bird_name scientific_name st,
     truthy (strip bird_name) = false →
     get_species_code w bird_name scientific_name st = (Ok None, st)).
Proof.
  split_and!.
  - intros. by apply get_species_code_input_normalised.
  - apply taxonomy_side_lower.
  - intros. by apply get_species_code_blank.
Qed.

Lemma input_trimmed_taxonomy_lowered_witness :
  get_species_code (serving [wren] []) "  " "" initial_state
  = (Ok None, initial_state).
Proof.
  apply (proj2 (proj2 input_trimmed_taxonomy_lowered)). reflexivity.
Defined.




End ResolverClaims.

(** ** Score combiner and rank mapping *)

Section CombinerFacts.
Import PyStr App.
Context {F : Type} `{PyFloat F}.
Implicit Types (bird_suggestions : list bird) (common_name : string).

Lemma score_fold_lookup ebird_probabilities llm_ranks llm_weight ebird_weight
    bird_suggestions (acc : gmap string (score_data F)) common_name :
  foldl (score_step ebird_probabilities llm_ranks llm_weight ebird_weight)
        acc bird_suggestions !! common_name
  = if decide (truthy common_name = true ∧ common_name ∈ names bird_suggestions)
    then Some (score_of ebird_probabilities llm_ranks llm_weight ebird_weight
                        common_name)
    else acc !! common_name.
Proof.
  revert acc. induction bird_suggestions as [|b rest IH]; intros acc; simpl.
  { case_decide as Hd; [|done]. destruct Hd as [_ Hd]. by apply elem_of_nil in Hd. }
  rewrite IH. unfold names. simpl. fold (names rest).
  case_decide as Hrest.
  { rewrite decide_True; [done|]. destruct Hrest. split; [done|]. by right. }
  unfold score_step.
  destruct (truthy (get_str b "common_name")) eqn:Hb; simpl.
  - destruct (decide (get_str b "common_name" = common_name)) as [<-|Hne].
    + rewrite lookup_insert_eq, decide_True; [done|]. split; [done|]. by left.
    + rewrite lookup_insert_ne by done.
      rewrite decide_False; [done|].
      intros [Ht [?|?]%elem_of_cons]; [by subst|]. by apply Hrest.
  - rewrite decide_False; [done|].
    intros [Ht [->|?]%elem_of_cons]; [congruence|]. by apply Hrest.
Qed.

(** The combiner has an entry exactly for the non-empty names of the
    candidate list, and the entry of a name is computed from the name. *)
Lemma combined_scores_lookup ebird_probabilities llm_ranks llm_weight ebird_weight
    bird_suggestions common_name :
  calculate_combined_scores bird_suggestions ebird_probabilities llm_ranks
                            llm_weight ebird_weight !! common_name
  = if decide (truthy common_name = true ∧ common_name ∈ names bird_suggestions)
    then Some (score_of ebird_probabilities llm_ranks llm_weight ebird_weight
                        common_name)
    else None.
Proof.
  unfold calculate_combined_scores.
  by rewrite score_fold_lookup, lookup_empty.
Qed.

Lemma names_app (l1 l2 : list bird) : names (l1 ++ l2) = names l1 ++ names l2.
Proof. unfold names. by rewrite fmap_app. Qed.

(** Later candidates overwrite earlier ones: the scores of a list in two
    parts are those of the second part, completed by those of the first. *)
Lemma combined_scores_app ebird_probabilities llm_ranks llm_weight ebird_weight
    (l1 l2 : list bird) :
  calculate_combined_scores (l1 ++ l2) ebird_probabilities llm_ranks
                            llm_weight ebird_weight
  = calculate_combined_scores l2 ebird_probabilities llm_ranks
                              llm_weight ebird_weight
    ∪ calculate_combined_scores l1 ebird_probabilities llm_ranks
                                llm_weight ebird_weight.
Proof.
  apply map_eq. intros k.
  rewrite lookup_union, !combined_scores_lookup, names_app.
  destruct (decide (truthy k = true ∧ k ∈ names l2)) as [[Ht H2]|H2];
    destruct (decide (truthy k = true ∧ k ∈ names l1)) as [[Ht' H1]|H1].
  - by rewrite decide_True; [|split; [done|apply elem_of_app; by right]].
  - by rewrite decide_True; [|split; [done|apply elem_of_app; by right]].
  - by rewrite decide_True; [|split; [done|apply elem_of_app; by left]].
  - rewrite decide_False; [done|].
    intros [Ht [?|?]%elem_of_app]; [by apply H1|by apply H2].
Qed.

End CombinerFacts.

Section RankFacts.
Import PyStr App.
Implicit Types (bird_suggestions : list bird) (common_name : string).

Lemma enumerate_app {A : Type} (k : Z) (l1 l2 : list A) :
  enumerate k (l1 ++ l2)
  = enumerate k l1 ++ enumerate (k + Z.of_nat (length l1)) l2.
Proof.
  revert k. induction l1 as [|x l1 IH]; intros k; simpl.
  { by rewrite Z.add_0_r. }
  rewrite IH. do 3 f_equal. lia.
Qed.

Lemma rank_fold_absent (k : Z) bird_suggestions (acc : gmap string Z) common_name :
  common_name ∉ names bird_suggestions →
  foldl rank_step acc (enumerate k bird_suggestions) !! common_name
  = acc !! common_name.
Proof.
  revert k acc. induction bird_suggestions as [|b rest IH]; intros k acc Hn; [done|].
  simpl. unfold names in Hn. simpl in Hn. apply not_elem_of_cons in Hn as [Hb Hrest].
  rewrite IH by done. unfold rank_step. simpl.
  destruct (truthy _); [|done]. by rewrite lookup_insert_ne.
Qed.

(** Last write wins: the rank of a name is the position of its last
    occurrence. *)
Lemma rank_of_last_occurrence (l1 l2 : list bird) (b : bird) :
  let common_name := get_str b "common_name" in
  truthy common_name = true →
  common_name ∉ names l2 →
  build_llm_ranks (l1 ++ b :: l2) !! common_name
  = Some (Z.of_nat (length l1) + 1)%Z.
Proof.
  intros common_name Ht Hlast.
  unfold build_llm_ranks. rewrite enumerate_app, foldl_app. simpl.
  rewrite rank_fold_absent by done.
  unfold rank_step at 1. fold common_name. rewrite Ht.
  rewrite lookup_insert_eq. f_equal. lia.
Qed.

Lemma rank_of_absent bird_suggestions common_name :
  common_name ∉ names bird_suggestions →
  build_llm_ranks bird_suggestions !! common_name = None.
Proof.
  intros Hn. unfold build_llm_ranks. by rewrite rank_fold_absent.
Qed.

End RankFacts.

(** ** The score combiner: the claims *)

Section CombinerClaims.
Import PyStr App Scenario.

Lemma rank_score_exact (r : Z) : (rank_score (F:=Q) r == inject_Z (6 - r) / 5)%Q.
Proof. reflexivity. Qed.

Lemma rank_score_decreasing (r1 r2 : Z) :
  (r1 < r2)%Z → (rank_score (F:=Q) r2 < rank_score (F:=Q) r1)%Q.
Proof.
  intros Hlt. unfold rank_score, Qlt. simpl. lia.
Qed.


Lemma combine_exact (a b wl we : Q) :
  (combine a b wl we == (a * wl + b * we) * 100)%Q.
Proof. reflexivity. Qed.






(** C8. If a name that is not empty occurs more than once, the later
    occurrence overwrites the earlier one in the rank mapping: the rank of a
    name is the (1-based) position of its last occurrence. The score mapping
    holds for that name the one entry written at its last occurrence, with
    that rank; so each name occurs at most once among its keys. *)
Theorem last_write_wins (F : Type) (HF : PyFloat F)
    (l1 l2 : list bird) (b : bird)
    (ebird_probabilities : gmap string F) (llm_weight ebird_weight : F) :
  let common_name := get_str b "common_name" in
  let bird_suggestions := l1 ++ b :: l2 in
  let llm_ranks := build_llm_ranks bird_suggestions in
  let combined_scores :=
    calculate_combined_scores bird_suggestions ebird_probabilities llm_ranks
                              llm_weight ebird_weight in
  truthy common_name = true →
  common_name ∉ names l2 →
  llm_ranks !! common_name = Some (Z.of_nat (length l1) + 1)%Z ∧
  (∃ s, combined_scores !! common_name = Some s ∧
        llm_rank s = (Z.of_nat (length l1) + 1)%Z ∧
        s = score_of ebird_probabilities llm_ranks llm_weight ebird_weight
                     common_name) ∧
  combined_scores
  = calculate_combined_scores (b :: l2) ebird_probabilities llm_ranks
                              llm_weight ebird_weight
    ∪ calculate_combined_scores l1 ebird_probabilities llm_ranks
                                llm_weight ebird_weight ∧
  NoDup (map_to_list combined_scores).*1.
Proof.
  intros common_name bird_suggestions llm_ranks combined_scores Ht Hlast.
  assert (llm_ranks !! common_name = Some (Z.of_nat (length l1) + 1)%Z) as Hr.
  { by apply rank_of_last_occurrence. }
  split_and!; [done| | |apply NoDup_fst_map_to_list].
  - exists (score_of ebird_probabilities llm_ranks llm_weight ebird_weight
                     common_name).
    split_and!; [| |done].
    + unfold combined_scores. rewrite combined_scores_lookup, decide_True; [done|].
      split; [done|]. unfold bird_suggestions.
      rewrite names_app, elem_of_app. right. by left.
    + unfold score_of. simpl. by rewrite Hr.
  - apply combined_scores_app.
Qed.

Lemma last_write_wins_witness :
  build_llm_ranks
    (two_wrens ++ [ ({[ "common_name" := "Carolina Wren" ]} : bird) ])
    !! "Carolina Wren" = Some 3%Z.
Proof.
  refine (proj1 (last_write_wins Q exact two_wrens []
                   {[ "common_name" := "Carolina Wren" ]} ∅ (2 # 5)%Q (3 # 5)%Q
                   _ _)).
  - reflexivity.
  - apply not_elem_of_nil.
Defined.

(** C10. Every candidate whose name is not empty gets an entry. A name that
    the rank mapping lacks is scored with rank 5, that is with an llm_score of
    (6 - 5)/5 (0.2 in binary64, 1/5 exactly); a name that the probability
    mapping lacks is scored with probability 0.0. *)
Theorem missing_rank_and_probability_defaults :
  (∀ (F : Type) (HF : PyFloat F) (bird_suggestions : list bird)
     (ebird_probabilities : gmap string F) (llm_ranks : gmap string Z)
     (llm_weight ebird_weight : F) (b : bird),
     let common_name := get_str b "common_name" in
     b ∈ bird_suggestions →
     truthy common_name = true →
     ∃ s, calculate_combined_scores bird_suggestions ebird_probabilities
            llm_ranks llm_weight ebird_weight !! common_name = Some s ∧
          (llm_ranks !! common_name = None →
           llm_rank s = 5%Z ∧
           llm_score s = fmul (rank_score 5) (from_int 100) ∧
           combined_score s
           = combine (rank_score 5) (fdiv (ebird_probability s) (from_int 100))
                     llm_weight ebird_weight) ∧
          (ebird_probabilities !! common_name = None →
           ebird_probability s = from_int 0 ∧
           ebird_score s = fmul (fdiv (from_int 0) (from_int 100)) (from_int 100) ∧
           combined_score s
           = combine (rank_score (llm_rank s)) (fdiv (from_int 0) (from_int 100))
                     llm_weight ebird_weight)) ∧
  rank_score (F:=float) 5 = 0.2%float ∧
  (rank_score (F:=Q) 5 == 1 # 5)%Q ∧
  (from_int (F:=float) 0 = 0.0%float).
Proof.
  split_and!; [|by vm_compute..].
  intros F HF bs probs ranks wl we b name Hin Ht.
  eexists. split.
  { rewrite combined_scores_lookup, decide_True; [done|]. split; [done|].
    unfold names. apply list_elem_of_fmap. by exists b. }
  unfold score_of. simpl. by split; intros ->.
Qed.

Lemma missing_rank_and_probability_defaults_witness :
  ∃ s, calculate_combined_scores (F:=float) two_wrens ∅ ∅ 0.4%float 0.6%float
         !! "House Wren" = Some s ∧
       llm_rank s = 5%Z ∧ ebird_probability s = 0.0%float ∧
       combined_score s = 8.0000000000000018%float.
Proof.
  destruct (proj1 missing_rank_and_probability_defaults float binary64
              two_wrens ∅ ∅ 0.4%float 0.6%float
              {[ "common_name" := "House Wren";
                 "scientific_name" := "Troglodytes aedon" ]})
    as (s & Hs & Hrank & Hprob).
  - unfold two_wrens. right. left.
  - reflexivity.
  - exists s. destruct (Hrank eq_refl) as (Hr & _ & Hc).
    destruct (Hprob eq_refl) as (Hp & _ & _).
    split_and!; [done..|]. rewrite Hc, Hp. by vm_compute.
Defined.

End CombinerClaims.

(** ** Probability calculator *)

Section ProbabilityFacts.
Import PyStr Ebird.

(** Filling a dictionary from the items of another one, value by value. *)
Lemma fill_lookup {A B : Type} (f : A → B) (items : list (string * A))
    (acc : gmap string B) (k : string) :
  NoDup items.*1 →
  foldl (λ m '(key, v), <[key := f v]> m) acc items !! k
  = match (list_to_map items : gmap string A) !! k with
    | Some v => Some (f v)
    | None => acc !! k
    end.
Proof.
  revert acc. induction items as [|[k0 v0] rest IH]; intros acc Hnd; simpl.
  { by rewrite lookup_empty. }
  apply NoDup_cons in Hnd as [Hk0 Hnd]. rewrite IH by done.
  destruct (decide (k0 = k)) as [->|Hne].
  - rewrite lookup_insert_eq.
    by rewrite (not_elem_of_list_to_map_1 _ _ Hk0), lookup_insert_eq.
  - by rewrite !lookup_insert_ne.
Qed.

Section Generic.
Context {F : Type} `{PyFloat F}.

Lemma probabilities_of_lookup (observation_counts : gmap string Z) bird_name :
  probabilities_of (F:=F) observation_counts !! bird_name
  = probability (total_observations observation_counts)
      <$> observation_counts !! bird_name.
Proof.
  unfold probabilities_of.
  rewrite (fill_lookup (probability (total_observations observation_counts)))
    by apply NoDup_fst_map_to_list.
  rewrite list_to_map_to_list, lookup_empty.
  by destruct (observation_counts !! bird_name).
Qed.

Lemma probabilities_of_fmap (observation_counts : gmap string Z) :
  probabilities_of (F:=F) observation_counts
  = probability (total_observations observation_counts) <$> observation_counts.
Proof.
  apply map_eq. intros k. by rewrite probabilities_of_lookup, lookup_fmap.
Qed.

End Generic.

Lemma Qsum_perm (l1 l2 : list Q) : l1 ≡ₚ l2 → (Qsum l1 == Qsum l2)%Q.
Proof.
  induction 1 as [|x l1 l2 _ IH|x y l|l1 l2 l3 _ IH1 _ IH2]; simpl.
  - reflexivity.
  - by rewrite IH.
  - ring.
  - by rewrite IH1.
Qed.

Lemma foldl_add (a : Z) (l : list Z) :
  foldl Z.add a l = (a + foldr Z.add 0 l)%Z.
Proof.
  revert a. induction l as [|x l IH]; intros a; simpl; [lia|].
  rewrite IH. lia.
Qed.

Lemma Qsum_shares (total : Z) (l : list Z) :
  (0 < total)%Z →
  (Qsum (probability (F:=Q) total <$> l)
   == inject_Z (foldr Z.add 0%Z l) / inject_Z total * 100)%Q.
Proof.
  intros Hpos.
  assert (¬ (inject_Z total == 0)%Q) as Hne.
  { unfold Qeq. simpl. lia. }
  induction l as [|x l IH]; simpl.
  - field. done.
  - rewrite IH. unfold probability. rewrite (proj2 (Z.ltb_lt 0 total) Hpos).
    simpl. rewrite inject_Z_plus. field. done.
Qed.

Lemma probabilities_sum (observation_counts : gmap string Z) :
  (0 < total_observations observation_counts)%Z →
  (Qsum (snd <$> map_to_list (probabilities_of (F:=Q) observation_counts))
   == 100)%Q.
Proof.
  intros Hpos. rewrite probabilities_of_fmap.
  rewrite (Qsum_perm _ (probability (total_observations observation_counts)
                          <$> (snd <$> map_to_list observation_counts))).
  2:{ rewrite map_to_list_fmap, <- !list_fmap_compose.
      assert (∀ x y : list Q, x = y → x ≡ₚ y) as Heq by (by intros ?? ->).
      apply Heq, list_fmap_ext. by intros i [k v] _. }
  rewrite Qsum_shares by done.
  unfold total_observations in *. rewrite foldl_add, Z.add_0_l in *.
  field. unfold Qeq. simpl. lia.
Qed.




End ProbabilityFacts.

(** ** The probability calculator: the claims *)

Section ProbabilityClaims.
Import PyStr Ebird Scenario.



End ProbabilityClaims.

(** ** The pipeline of [calculate_probabilities] *)

Section PipelineFacts.
Import PyStr Ebird.
Context (w : World).









End PipelineFacts.

Section PipelineClaims.
Import PyStr Ebird Scenario.




End PipelineClaims.

(** ** Observation filter *)

Section FilterFacts.
Import PyStr Ebird.
Local Open Scope Z_scope.

(** With [today] at some time of its day and the observation at midnight,
    the whole days between them are the days between the two dates. *)
Lemma days_between_midnight (today : Dates.datetime) (d : Dates.date) :
  Dates.valid_time today →
  Dates.days_between today (Dates.mkDatetime d 0)
  = Dates.toordinal (Dates.dt_date today) - Dates.toordinal d.
Proof.
  intros [Hlo Hhi]. unfold Dates.days_between, Dates.us_per_day in *. simpl.
  rewrite Z.sub_0_r, Z.add_comm, Z.div_add by lia.
  rewrite Z.div_small by lia. lia.
Qed.

Lemma keep_observation_true today days_back years_back obs :
  keep_observation today days_back years_back obs = Ok true ↔
  ∃ d, observed_date obs = Some d ∧
       (recent today days_back d ∨ anniversary today years_back d).
Proof.
  unfold keep_observation, observed_date, recent, anniversary.
  destruct (truthy (get_str obs "obsDt")) eqn:Ht; simpl.
  2:{ split; [done|]. apply truthy_false in Ht. rewrite Ht.
      by intros (d & ? & _). }
  destruct (split (get_str obs "obsDt")) as [|token rest].
  { split; [done|]. by intros (d & ? & _). }
  destruct (Dates.strptime_ymd token) as [d|].
  2:{ split; [done|]. by intros (d & ? & _). }
  destruct (Z.leb_spec (Dates.days_between today (Dates.mkDatetime d 0)) days_back)
    as [Hle|Hgt].
  { split; [|done]. intros _. exists d. split; [done|]. by left. }
  destruct (Z.ltb_spec 0 years_back) as [Hy|Hy]; simpl.
  2:{ split; [done|]. intros (d' & [= <-] & [?|(? & _)]); lia. }
  destruct (Z.eqb_spec (Dates.month d) (Dates.month (Dates.dt_date today)))
    as [Hm|Hm].
  2:{ split; [done|]. intros (d' & [= <-] & [?|(_ & ? & _)]); [lia|done]. }
  destruct (Z.leb_spec 1 (Dates.year (Dates.dt_date today) - Dates.year d));
    destruct (Z.leb_spec (Dates.year (Dates.dt_date today) - Dates.year d)
                years_back); simpl.
  - split; [|done]. intros _. exists d. split; [done|]. right. lia.
  - split; [done|]. intros (d' & [= <-] & [?|(_ & _ & ?)]); lia.
  - split; [done|]. intros (d' & [= <-] & [?|(_ & _ & ?)]); lia.
  - split; [done|]. intros (d' & [= <-] & [?|(_ & _ & ?)]); lia.
Qed.

Lemma keep_observation_raises today days_back years_back obs e :
  keep_observation today days_back years_back obs = Raise e ↔
  blank_date obs ∧ e = IndexError.
Proof.
  unfold keep_observation, blank_date.
  destruct (truthy (get_str obs "obsDt")); simpl.
  2:{ split; [done|]. by intros [[? _] _]. }
  destruct (split (get_str obs "obsDt")) as [|token rest].
  { split; [by intros [= <-]|]. by intros [_ ->]. }
  split; [|by intros [[_ ?] _]].
  by repeat case_match.
Qed.

(** Without a blank date string the loop is a filter: the output is the
    sublist, in order, of the records whose date parses and satisfies one of
    the two rules; a record that satisfies both is appended once. *)
Lemma filter_by_date_Ok today days_back years_back observations filtered_obs :
  (∀ obs, obs ∈ observations → ¬ blank_date obs) →
  filter_by_date today days_back years_back observations filtered_obs
  = Ok (filtered_obs ++ List.filter (keeps today days_back years_back) observations).
Proof.
  revert filtered_obs.
  induction observations as [|obs rest IH]; intros acc Hnb; simpl.
  { by rewrite app_nil_r. }
  unfold keeps at 1.
  destruct (keep_observation today days_back years_back obs) as [[|]|e] eqn:Hk.
  - rewrite IH, <- app_assoc; [done|]. intros o Ho. apply Hnb. by right.
  - rewrite IH; [done|]. intros o Ho. apply Hnb. by right.
  - apply keep_observation_raises in Hk as [Hb _]. destruct (Hnb obs); [left|done].
Qed.

(** One blank date string aborts the loop. *)
Lemma filter_by_date_blank today days_back years_back observations filtered_obs :
  (∃ obs, obs ∈ observations ∧ blank_date obs) →
  filter_by_date today days_back years_back observations filtered_obs
  = Raise IndexError.
Proof.
  revert filtered_obs.
  induction observations as [|obs rest IH]; intros acc (o & Ho & Hb).
  { by apply elem_of_nil in Ho. }
  simpl.
  destruct (keep_observation today days_back years_back obs) as [[|]|e] eqn:Hk.
  - apply IH. apply elem_of_cons in Ho as [->|Ho]; [|eauto].
    assert (keep_observation today days_back years_back obs = Raise IndexError)
      as Hr by (by apply keep_observation_raises). congruence.
  - apply IH. apply elem_of_cons in Ho as [->|Ho]; [|eauto].
    assert (keep_observation today days_back years_back obs = Raise IndexError)
      as Hr by (by apply keep_observation_raises). congruence.
  - by apply keep_observation_raises in Hk as [_ ->].
Qed.

(** The rule of the filter, for batches without a blank date string. *)
Lemma date_filter_rule today days_back years_back observations obs :
  (∀ obs, obs ∈ observations → ¬ blank_date obs) →
  ∃ filtered_obs,
    filter_by_date today days_back years_back observations [] = Ok filtered_obs ∧
    sublist filtered_obs observations ∧
    (obs ∈ filtered_obs ↔
     obs ∈ observations ∧
     ∃ d, observed_date obs = Some d ∧
          (recent today days_back d ∨ anniversary today years_back d)).
Proof.
  intros Hnb. eexists. split; [by apply filter_by_date_Ok|]. simpl. split.
  - induction observations as [|o rest IH]; simpl; [done|].
    assert (sublist (List.filter (keeps today days_back years_back) rest) rest).
    { apply IH. intros o' Ho'. apply Hnb. by right. }
    destruct (keeps _ _ _ o); by constructor.
  - rewrite list_elem_of_In, filter_In, <- list_elem_of_In.
    rewrite <- keep_observation_true. unfold keeps.
    split; intros [Hin Hk]; (split; [done|]).
    + by destruct (keep_observation _ _ _ obs) as [[|]|].
    + by rewrite Hk.
Qed.

(** The two functions around the loop, for a species code, a location and
    an API key that pass the guards and a request that succeeds: without a
    blank date string the result is the filtered batch; with one, the whole
    batch is replaced by the empty list and a line is printed. *)
Lemma get_observations_by_coords_filters w species_code latitude longitude
    days_back years_back observations api_key st :
  truthy species_code = true →
  in_range (-90) latitude 90 = true → in_range (-180) longitude 180 = true →
  Config.get_ebird_api_key w = Ok api_key →
  geo_response w species_code latitude longitude days_back = Ok observations →
  (∀ obs, obs ∈ observations → ¬ blank_date obs) →
  get_observations_by_coords w species_code latitude longitude
    days_back years_back st
  = (Ok (List.filter (keeps (now w) days_back years_back) observations), st).
Proof.
  intros Hc Hlat Hlng Hkey Hresp Hnb. unfold get_observations_by_coords.
  rewrite Hc, Hlat, Hlng, Hkey, Hresp. simpl.
  by rewrite filter_by_date_Ok.
Qed.

Lemma get_observations_by_coords_aborts w species_code latitude longitude
    days_back years_back observations api_key st :
  truthy species_code = true →
  in_range (-90) latitude 90 = true → in_range (-180) longitude 180 = true →
  Config.get_ebird_api_key w = Ok api_key →
  geo_response w species_code latitude longitude days_back = Ok observations →
  (∃ obs, obs ∈ observations ∧ blank_date obs) →
  get_observations_by_coords w species_code latitude longitude
    days_back years_back st
  = (Ok [], print LogUnexpected st).
Proof.
  intros Hc Hlat Hlng Hkey Hresp Hb. unfold get_observations_by_coords.
  rewrite Hc, Hlat, Hlng, Hkey, Hresp. simpl.
  by rewrite filter_by_date_blank.
Qed.

Lemma get_observations_by_region_filters w species_code region_code
    days_back years_back observations api_key st :
  truthy species_code = true → truthy region_code = true →
  Config.get_ebird_api_key w = Ok api_key →
  region_response w species_code region_code days_back = Ok observations →
  (∀ obs, obs ∈ observations → ¬ blank_date obs) →
  get_observations_by_region w species_code region_code days_back years_back st
  = (Ok (List.filter (keeps (now w) days_back years_back) observations), st).
Proof.
  intros Hc Hr Hkey Hresp Hnb. unfold get_observations_by_region.
  rewrite Hc, Hr, Hkey, Hresp. simpl.
  by rewrite filter_by_date_Ok.
Qed.

Lemma get_observations_by_region_aborts w species_code region_code
    days_back years_back observations api_key st :
  truthy species_code = true → truthy region_code = true →
  Config.get_ebird_api_key w = Ok api_key →
  region_response w species_code region_code days_back = Ok observations →
  (∃ obs, obs ∈ observations ∧ blank_date obs) →
  get_observations_by_region w species_code region_code days_back years_back st
  = (Ok [], print LogUnexpected st).
Proof.
  intros Hc Hr Hkey Hresp Hb. unfold get_observations_by_region.
  rewrite Hc, Hr, Hkey, Hresp. simpl.
  by rewrite filter_by_date_blank.
Qed.

(** The boundaries of the two rules, with [today] at noon of 2 May 2024, 30
    days back and 5 years back: 30 days before is kept, 31 days before (in
    another month) is not; May of 2019 is kept, May of 2018 is not; a day of
    next week is kept by rule (a). *)
Example window_boundaries :
  keeps Scenario.noon 30 5 <$>
    (Scenario.seen <$>
       [ "2024-04-02"; "2024-04-01"; "2019-05-31"; "2018-05-31"; "2023-04-30";
         "2024-05-09 08:15"; "2024-02-30"; "" ])
  = [ true; false; true; false; false; true; false; false ].
Proof. by vm_compute. Qed.

End FilterFacts.

Section FilterClaims.
Import PyStr Ebird Scenario.

(** C3. The filter misses one case of an unparsable date. A date string of
    blanks is not empty, so it passes the test for a missing date, but it has
    no first token: [split()[0]] raises [IndexError], which the handler for
    [ValueError] inside the loop does not catch. The handler that closes the
    function catches it and returns the empty list: the record of the day
    before, which rule (a) keeps, is lost with it. A date string that is
    wrong in any other way only drops its own record. *)
Theorem blank_date_aborts_batch :
  let day_before := seen "2024-05-01 10:00" in
  keep_observation noon 30 5 day_before = Ok true ∧
  keep_observation noon 30 5 (seen " ") = Raise IndexError ∧
  get_observations_by_coords (serving [] [day_before; seen " "])
    "carwre" 40 (-75) 30 5 initial_state
  = (Ok [], print LogUnexpected initial_state) ∧
  get_observations_by_region (serving [] [day_before; seen " "])
    "carwre" "US-NY" 30 5 initial_state
  = (Ok [], print LogUnexpected initial_state) ∧
  get_observations_by_coords (serving [] [day_before; seen "yesterday"])
    "carwre" 40 (-75) 30 5 initial_state
  = (Ok [day_before], initial_state).
Proof. split_and!; by vm_compute. Qed.

End FilterClaims.

(** * Further properties *)

(** ** The observation requests *)

Section ObservationRequests.
Import PyStr Ebird Scenario.
Local Open Scope Z_scope.


Lemma keep_observation_time_of_day (t1 t2 : Dates.datetime) days_back years_back obs :
  Dates.valid_time t1 → Dates.valid_time t2 →
  Dates.dt_date t1 = Dates.dt_date t2 →
  keep_observation t1 days_back years_back obs
  = keep_observation t2 days_back years_back obs.
Proof.
  intros H1 H2 Hd. unfold keep_observation.
  case_match; [done|]. case_match; [done|]. case_match; [|done].
  by rewrite !days_between_midnight, Hd.
Qed.

(** The filter looks at the date of [today] only: at whatever time of the
    day it runs, it keeps the same records. *)
Theorem filter_ignores_time_of_day (t1 t2 : Dates.datetime)
    (days_back years_back : Z) (observations filtered_obs : list observation) :
  Dates.valid_time t1 → Dates.valid_time t2 →
  Dates.dt_date t1 = Dates.dt_date t2 →
  filter_by_date t1 days_back years_back observations filtered_obs
  = filter_by_date t2 days_back years_back observations filtered_obs.
Proof.
  intros H1 H2 Hd. revert filtered_obs.
  induction observations as [|obs rest IH]; intros acc; simpl; [done|].
  rewrite (keep_observation_time_of_day t1 t2) by done.
  by repeat case_match.
Qed.

Lemma filter_ignores_time_of_day_witness :
  filter_by_date noon 30 5 [seen "2024-04-02"; seen "2024-04-01"] []
  = filter_by_date (Dates.mkDatetime (Dates.mkDate 2024 5 2) 0) 30 5
      [seen "2024-04-02"; seen "2024-04-01"] [].
Proof.
  apply filter_ignores_time_of_day.
  - unfold Dates.valid_time, Dates.us_per_day. simpl. lia.
  - unfold Dates.valid_time, Dates.us_per_day. simpl. lia.
  - reflexivity.
Defined.





(** An observation request whose guards pass and that the API answers
    returns, when no date string is blank, exactly the records whose date
    parses and is in the recent window or in the anniversary window: each
    once, in the order of the response, and the state is left as it was. *)
Theorem observation_requests_filter w (species_code region_code : string)
    (latitude longitude : Q) (days_back years_back : Z)
    (observations : list observation) (api_key : string) (st : State) :
  truthy species_code = true →
  Config.get_ebird_api_key w = Ok api_key →
  (∀ obs, obs ∈ observations → ¬ blank_date obs) →
  let kept obs :=
    ∃ d, observed_date obs = Some d ∧
         (recent (now w) days_back d ∨ anniversary (now w) years_back d) in
  (in_range (-90) latitude 90 = true → in_range (-180) longitude 180 = true →
   geo_response w species_code latitude longitude days_back = Ok observations →
   ∃ filtered_obs,
     get_observations_by_coords w species_code latitude longitude
       days_back years_back st = (Ok filtered_obs, st) ∧
     sublist filtered_obs observations ∧
     ∀ obs, obs ∈ filtered_obs ↔ obs ∈ observations ∧ kept obs) ∧
  (truthy region_code = true →
   region_response w species_code region_code days_back = Ok observations →
   ∃ filtered_obs,
     get_observations_by_region w species_code region_code
       days_back years_back st = (Ok filtered_obs, st) ∧
     sublist filtered_obs observations ∧
     ∀ obs, obs ∈ filtered_obs ↔ obs ∈ observations ∧ kept obs).
Proof.
  intros Hc Hkey Hnb kept.
  assert (sublist (List.filter (keeps (now w) days_back years_back) observations)
                  observations ∧
          ∀ obs, obs ∈ List.filter (keeps (now w) days_back years_back) observations
                 ↔ obs ∈ observations ∧ kept obs) as [Hsub Hiff].
  { split.
    - clear. induction observations as [|o rest IH]; simpl; [done|].
      destruct (keeps _ _ _ o); by constructor.
    - intros obs. rewrite list_elem_of_In, filter_In, <- list_elem_of_In.
      unfold kept. rewrite <- keep_observation_true. unfold keeps.
      split; intros [Hin Hk]; (split; [done|]).
      + by destruct (keep_observation _ _ _ obs) as [[|]|].
      + by rewrite Hk. }
  split.
  - intros Hlat Hlng Hresp. eexists. split; [|done].
    by eapply get_observations_by_coords_filters.
  - intros Hr Hresp. eexists. split; [|done].
    by eapply get_observations_by_region_filters.
Qed.

Lemma observation_requests_filter_witness :
  ∃ filtered_obs,
    get_observations_by_coords
      (serving [] [seen "2024-04-02"; seen "yesterday"; seen "2018-05-31"])
      "carwre" 40 (-75) 30 5 initial_state = (Ok filtered_obs, initial_state) ∧
    sublist filtered_obs [seen "2024-04-02"; seen "yesterday"; seen "2018-05-31"] ∧
    ∀ obs, obs ∈ filtered_obs ↔
           obs ∈ [seen "2024-04-02"; seen "yesterday"; seen "2018-05-31"] ∧
           ∃ d, observed_date obs = Some d ∧
                (recent noon 30 d ∨ anniversary noon 5 d).
Proof.
  refine (proj1 (observation_requests_filter
                   (serving [] [seen "2024-04-02"; seen "yesterday"; seen "2018-05-31"])
                   "carwre" "US-NY" 40 (-75) 30 5
                   [seen "2024-04-02"; seen "yesterday"; seen "2018-05-31"]
                   "secret" initial_state _ _ _) _ _ _).
  - reflexivity.
  - by vm_compute.
  - intros obs Hin [_ Hb].
    repeat (apply elem_of_cons in Hin as [->|Hin]; [by vm_compute in Hb|]).
    by apply elem_of_nil in Hin.
  - by vm_compute.
  - by vm_compute.
  - reflexivity.
Defined.



End ObservationRequests.

(** ** What the resolver returns *)

Section ResolverAnswers.
Import PyStr Ebird Scenario.

Lemma prefix_refl (s : string) : String.prefix s s = true.
Proof.
  induction s as [|c s IH]; simpl; [done|]. by destruct (ascii_dec c c).
Qed.

Lemma contains_refl (s : string) : contains s s = true.
Proof.
  destruct s as [|c s]; [done|].
  unfold contains; fold contains. by rewrite prefix_refl.
Qed.


Lemma is_partial_refl (s : string) : is_partial s s = true.
Proof. unfold is_partial. by rewrite contains_refl. Qed.


(** An answer of the resolver is never the empty string: it is the species
    code of a row of the taxonomy, and that row's lower-cased common name
    contains the trimmed lower-cased input or is contained in it, or its
    scientific name does so for the scientific name that was given. *)
Theorem resolve_returns_a_row (taxonomy : list species)
    (bird_name scientific_name code : string) :
  resolve taxonomy bird_name scientific_name = Some code →
  code ≠ EmptyString ∧
  ∃ sp, sp ∈ taxonomy ∧ get_species_code_field sp = code ∧
        (is_partial (strip (lower bird_name)) (lower (get_com_name sp)) = true ∨
         (strip (lower scientific_name) ≠ EmptyString ∧
          is_partial (strip (lower scientific_name)) (lower (get_sci_name sp))
          = true)).
Proof.
  rewrite resolve_chain. simpl.
  set (n := strip (lower bird_name)). set (s := strip (lower scientific_name)).
  intros Hr.
  assert (∃ sp, sp ∈ taxonomy ∧ has_code sp ∧ get_species_code_field sp = code ∧
                (is_partial n (lower (get_com_name sp)) = true ∨
                 (s ≠ EmptyString ∧ is_partial s (lower (get_sci_name sp)) = true)))
    as (sp & Hin & Hc & Hcode & Hm).
  { apply union_Some in Hr as [Hr|[_ Hr]].
    { apply exact_common_Some in Hr as (i & sp & (Hi & [Hn Hc] & _) & Hcode).
      exists sp. split_and!; [by eapply list_elem_of_lookup_2|done..|].
      left. rewrite Hn. apply is_partial_refl. }
    apply union_Some in Hr as [Hr|[_ Hr]].
    { apply exact_scientific_Some in Hr
        as (Hs & i & sp & (Hi & [Hn Hc] & _) & Hcode).
      exists sp. split_and!; [by eapply list_elem_of_lookup_2|done..|].
      right. split; [done|]. rewrite Hn. apply is_partial_refl. }
    apply union_Some in Hr as [Hr|[_ Hr]].
    { apply best_partial_Some in Hr as (i & sp & (Hi & [Hp Hc] & _) & Hcode).
      exists sp. split_and!; [by eapply list_elem_of_lookup_2|done..|]. by left. }
    apply partial_scientific_Some in Hr
      as (Hs & i & sp & (Hi & [Hp Hc] & _) & Hcode).
    exists sp. split_and!; [by eapply list_elem_of_lookup_2|done..|]. by right. }
  split; [|by exists sp].
  subst code. by apply truthy_true.
Qed.

Lemma resolve_returns_a_row_witness :
  "carwre" ≠ EmptyString ∧
  ∃ sp, sp ∈ [wren; carolina_wren] ∧ get_species_code_field sp = "carwre" ∧
        (is_partial (strip (lower "Carolina W")) (lower (get_com_name sp)) = true ∨
         (strip (lower "") ≠ EmptyString ∧
          is_partial (strip (lower "")) (lower (get_sci_name sp)) = true)).
Proof.
  apply (resolve_returns_a_row [wren; carolina_wren] "Carolina W" "" "carwre").
  by vm_compute.
Defined.



End ResolverAnswers.

(** ** Ranks and scores *)

Section RanksAndScores.
Import PyStr App Scenario.

Lemma rank_fold_is_Some (k : Z) (bird_suggestions : list bird)
    (acc : gmap string Z) (common_name : string) :
  is_Some (foldl rank_step acc (enumerate k bird_suggestions) !! common_name) →
  is_Some (acc !! common_name) ∨
  (truthy common_name = true ∧ common_name ∈ names bird_suggestions).
Proof.
  revert k acc. induction bird_suggestions as [|b rest IH]; intros k acc; simpl.
  { by left. }
  intros Hs. destruct (IH _ _ Hs) as [Hacc|[Ht Hin]].
  - unfold rank_step in Hacc.
    destruct (truthy (get_str b "common_name")) eqn:Hb; [|by left].
    apply lookup_insert_is_Some in Hacc as [<-|[_ Hacc]]; [|by left].
    right. split; [done|]. unfold names. simpl. by left.
  - right. split; [done|]. unfold names. simpl. by right.
Qed.

Lemma last_occurrence (bird_suggestions : list bird) (common_name : string) :
  common_name ∈ names bird_suggestions →
  ∃ l1 b l2, bird_suggestions = l1 ++ b :: l2 ∧
             get_str b "common_name" = common_name ∧
             common_name ∉ names l2.
Proof.
  induction bird_suggestions as [|b rest IH]; unfold names; simpl.
  { intros Hin. by apply elem_of_nil in Hin. }
  fold (names rest). intros Hin.
  destruct (decide (common_name ∈ names rest)) as [Hrest|Hrest].
  - destruct (IH Hrest) as (l1 & b' & l2 & -> & Hb & Hl2).
    by exists (b :: l1), b', l2.
  - apply elem_of_cons in Hin as [->|Hin]; [|done].
    by exists [], b, rest.
Qed.

Lemma rank_domain (bird_suggestions : list bird) (common_name : string) :
  is_Some (build_llm_ranks bird_suggestions !! common_name) ↔
  truthy common_name = true ∧ common_name ∈ names bird_suggestions.
Proof.
  split.
  - intros Hs. unfold build_llm_ranks in Hs.
    apply rank_fold_is_Some in Hs as [Hs|Hs]; [|done].
    rewrite lookup_empty in Hs. by destruct Hs.
  - intros [Ht Hin].
    destruct (last_occurrence _ _ Hin) as (l1 & b & l2 & -> & Hb & Hl2).
    subst common_name. rewrite rank_of_last_occurrence by done. by eexists.
Qed.

Lemma rank_position (bird_suggestions : list bird) (common_name : string) (r : Z) :
  build_llm_ranks bird_suggestions !! common_name = Some r →
  (1 ≤ r ≤ Z.of_nat (length bird_suggestions))%Z ∧
  (∃ b, bird_suggestions !! Z.to_nat (r - 1) = Some b ∧
        get_str b "common_name" = common_name) ∧
  (∀ i b, Z.to_nat (r - 1) < i → bird_suggestions !! i = Some b →
          get_str b "common_name" ≠ common_name).
Proof.
  intros Hr.
  destruct (proj1 (rank_domain bird_suggestions common_name)) as [Ht Hin];
    [by eexists|].
  destruct (last_occurrence _ _ Hin) as (l1 & b & l2 & -> & Hb & Hl2).
  subst common_name. rewrite rank_of_last_occurrence in Hr by done.
  injection Hr as <-. rewrite length_app. simpl.
  replace (Z.to_nat (Z.of_nat (length l1) + 1 - 1)) with (length l1) by lia.
  split_and!; [lia..| |].
  - exists b. split; [|done]. by rewrite list_lookup_middle.
  - intros i b' Hi Hb' Heq. apply Hl2.
    rewrite lookup_app_r in Hb' by lia.
    destruct (i - length l1) as [|j] eqn:Hj; [lia|]. simpl in Hb'.
    unfold names. apply list_elem_of_fmap. exists b'. split; [done|].
    by eapply list_elem_of_lookup_2.
Qed.

(** The rank mapping has an entry exactly for the names of the list that are
    not empty. The rank of a name is a position of the list, counted from 1:
    the candidate at that position has the name, and no later candidate has.
    Hence two names never share a rank. *)
Theorem rank_is_last_position (bird_suggestions : list bird) :
  (∀ common_name,
     is_Some (build_llm_ranks bird_suggestions !! common_name) ↔
     truthy common_name = true ∧ common_name ∈ names bird_suggestions) ∧
  (∀ common_name r,
     build_llm_ranks bird_suggestions !! common_name = Some r →
     (1 ≤ r ≤ Z.of_nat (length bird_suggestions))%Z ∧
     (∃ b, bird_suggestions !! Z.to_nat (r - 1) = Some b ∧
           get_str b "common_name" = common_name) ∧
     (∀ i b, Z.to_nat (r - 1) < i → bird_suggestions !! i = Some b →
             get_str b "common_name" ≠ common_name)) ∧
  (∀ name1 name2 r,
     build_llm_ranks bird_suggestions !! name1 = Some r →
     build_llm_ranks bird_suggestions !! name2 = Some r →
     name1 = name2).
Proof.
  split_and!.
  - apply rank_domain.
  - apply rank_position.
  - intros name1 name2 r H1 H2.
    destruct (rank_position _ _ _ H1) as (_ & (b1 & Hb1 & <-) & _).
    destruct (rank_position _ _ _ H2) as (_ & (b2 & Hb2 & <-) & _).
    congruence.
Qed.

Lemma rank_is_last_position_witness :
  (1 ≤ 2 ≤ Z.of_nat (length two_wrens))%Z ∧
  (∃ b, two_wrens !! Z.to_nat (2 - 1) = Some b ∧
        get_str b "common_name" = "House Wren") ∧
  (∀ i b, Z.to_nat (2 - 1) < i → two_wrens !! i = Some b →
          get_str b "common_name" ≠ "House Wren").
Proof.
  apply (proj1 (proj2 (rank_is_last_position two_wrens)) "House Wren" 2%Z).
  by vm_compute.
Defined.

Lemma percent_le (p1 p2 : Q) : (p2 <= p1 → p2 / 100 <= p1 / 100)%Q.
Proof. intros Hp. apply Qmult_le_compat_r; [done|]. by vm_compute. Qed.

Lemma combine_lt (a1 a2 b1 b2 wl we : Q) :
  (a2 < a1)%Q → (b2 <= b1)%Q → (0 < wl)%Q → (0 <= we)%Q →
  (combine a2 b2 wl we < combine a1 b1 wl we)%Q.
Proof.
  intros Ha Hb Hwl Hwe. rewrite !combine_exact.
  assert (a2 * wl < a1 * wl)%Q by (by apply Qmult_lt_compat_r).
  assert (b2 * we <= b1 * we)%Q by (by apply Qmult_le_compat_r).
  lra.
Qed.

(** In exact arithmetic, with a positive weight of the ranking and a weight
    of the observations that is not negative: of two candidates, the one with
    the better rank and at least the probability of the other has the higher
    combined score. In particular, when no candidate has any observation the
    scores fall strictly as the rank grows. *)
Theorem better_rank_scores_higher (bird_suggestions : list bird)
    (ebird_probabilities : gmap string Q) (llm_ranks : gmap string Z)
    (llm_weight ebird_weight : Q) (name1 name2 : string)
    (s1 s2 : score_data Q) :
  let combined_scores :=
    calculate_combined_scores bird_suggestions ebird_probabilities llm_ranks
                              llm_weight ebird_weight in
  (0 < llm_weight)%Q → (0 <= ebird_weight)%Q →
  combined_scores !! name1 = Some s1 →
  combined_scores !! name2 = Some s2 →
  (llm_rank s1 < llm_rank s2)%Z →
  (ebird_probability s2 <= ebird_probability s1)%Q →
  (combined_score s2 < combined_score s1)%Q.
Proof.
  intros combined_scores Hwl Hwe H1 H2 Hrank Hprob.
  unfold combined_scores in H1, H2.
  rewrite combined_scores_lookup in H1, H2.
  case_decide; [|done]. case_decide; [|done].
  injection H1 as <-. injection H2 as <-.
  unfold score_of. simpl.
  apply combine_lt; [|by apply percent_le|done..].
  by apply rank_score_decreasing.
Qed.

Lemma better_rank_scores_higher_witness :
  ∃ s1 s2,
    calculate_combined_scores two_wrens (∅ : gmap string Q)
      (build_llm_ranks two_wrens) (2 # 5) (3 # 5) !! "Carolina Wren" = Some s1 ∧
    calculate_combined_scores two_wrens (∅ : gmap string Q)
      (build_llm_ranks two_wrens) (2 # 5) (3 # 5) !! "House Wren" = Some s2 ∧
    (combined_score s2 < combined_score s1)%Q.
Proof.
  eexists _, _. split; [by vm_compute|]. split; [by vm_compute|].
  eapply (better_rank_scores_higher two_wrens ∅ (build_llm_ranks two_wrens)
            (2 # 5)%Q (3 # 5)%Q "Carolina Wren" "House Wren").
  - by vm_compute.
  - by vm_compute.
  - by vm_compute.
  - by vm_compute.
  - by vm_compute.
  - by vm_compute.
Defined.

End RanksAndScores.

(** ** The pipeline, whole *)

Section PipelineWhole.
Import PyStr Ebird Scenario.
Context (w : World).

Lemma advance_refl n st : advance n st st.
Proof. unfold advance. split; [lia|done]. Qed.

Lemma advance_print n e st : advance n st (print e st).
Proof. unfold advance. simpl. split; [lia|done]. Qed.

Lemma advance_trans n m st st1 st2 :
  advance n st st1 → advance m st1 st2 → advance (n + m) st st2.
Proof.
  intros [H1 C1] [H2 C2]. split; [lia|].
  intros t Ht. destruct (C1 t Ht) as [Hc1 Hr1]. destruct (C2 t Hc1) as [Hc2 Hr2].
  split; [done|lia].
Qed.

Lemma advance_weaken n m st st' : n ≤ m → advance n st st' → advance m st st'.
Proof. intros Hnm [H1 C1]. split; [lia|done]. Qed.

Lemma load_advance st r st' :
  _load_taxonomy w st = (r, st') → advance 1 st st'.
Proof.
  intros Hl. destruct (taxonomy_cache st) as [t|] eqn:Hc.
  - rewrite (load_cached w st t Hc) in Hl. injection Hl as <- <-.
    apply advance_refl.
  - destruct (load_uncached w st Hc) as (r' & st'' & Hl' & Hreq & _).
    rewrite Hl' in Hl. injection Hl as <- <-.
    split; [lia|]. intros t Ht. congruence.
Qed.

Lemma get_species_code_advance bird_name scientific_name st r st' :
  get_species_code w bird_name scientific_name st = (r, st') → advance 1 st st'.
Proof.
  unfold get_species_code. case_match.
  { intros [= <- <-]. apply advance_refl. }
  destruct (_load_taxonomy w st) as [r0 st0] eqn:Hl.
  apply load_advance in Hl. by repeat case_match; intros [= <- <-].
Qed.

Lemma observations_or_empty_advance r st r' st' :
  observations_or_empty r st = (r', st') → advance 0 st st'.
Proof.
  unfold observations_or_empty.
  repeat case_match; intros [= <- <-];
    first [apply advance_refl | apply advance_print].
Qed.

Lemma get_observations_by_coords_advance species_code latitude longitude
    days_back years_back st r st' :
  get_observations_by_coords w species_code latitude longitude
    days_back years_back st = (r, st') → advance 0 st st'.
Proof.
  unfold get_observations_by_coords.
  repeat case_match; (try by (intros [= <- <-];
    first [apply advance_refl | apply advance_print]));
    apply observations_or_empty_advance.
Qed.

Lemma get_observations_by_region_advance species_code region_code
    days_back years_back st r st' :
  get_observations_by_region w species_code region_code
    days_back years_back st = (r, st') → advance 0 st st'.
Proof.
  unfold get_observations_by_region.
  repeat case_match; (try by (intros [= <- <-];
    first [apply advance_refl | apply advance_print]));
    apply observations_or_empty_advance.
Qed.

Lemma observations_at_advance loc species_code days_back years_back st r st' :
  observations_at w loc species_code days_back years_back st = (r, st') →
  advance 0 st st'.
Proof.
  unfold observations_at. intros Hr.
  repeat case_match; simplify_eq; try apply advance_refl.
  - by eapply get_observations_by_coords_advance.
  - by eapply get_observations_by_coords_advance.
  - by eapply get_observations_by_region_advance.
  - by eapply get_observations_by_region_advance.
Qed.

Lemma count_observations_advance loc days_back years_back
    (bird_list : list bird) acc st r st' :
  count_observations w loc days_back years_back bird_list acc st = (r, st') →
  advance (length bird_list) st st'.
Proof.
  revert acc st. induction bird_list as [|b rest IH]; intros acc st.
  { intros [= <- <-]. apply advance_refl. }
  simpl.
  assert (∀ acc0 st0, advance 1 st st0 →
            count_observations w loc days_back years_back rest acc0 st0 = (r, st') →
            advance (S (length rest)) st st') as Hnext.
  { intros acc0 st0 H0 Hrun. apply (advance_trans 1 (length rest) st st0 st').
    - done.
    - by eapply IH. }
  case_match.
  { apply Hnext, (advance_weaken 0); [lia|apply advance_refl]. }
  destruct (get_species_code w (get_str b "common_name")
              (get_str b "scientific_name") st) as [r1 st1] eqn:Hcode.
  apply get_species_code_advance in Hcode.
  destruct r1 as [[species_code|]|e]; [|by apply Hnext|].
  2:{ intros [= <- <-]. eapply advance_weaken; [|done]. lia. }
  case_match; [by apply Hnext|].
  destruct (observations_at w loc species_code days_back years_back st1)
    as [r2 st2] eqn:Hat.
  apply observations_at_advance in Hat.
  assert (advance 1 st st2) as H2 by (apply (advance_trans 1 0 st st1 st2); done).
  destruct r2 as [[observations|]|e]; [by apply Hnext..|].
  intros [= <- <-]. eapply advance_weaken; [|done]. lia.
Qed.



Lemma count_observations_Ok loc days_back years_back
    (bird_list : list bird) acc st counts st' :
  count_observations w loc days_back years_back bird_list acc st
  = (Ok counts, st') →
  (∀ k, is_Some (counts !! k) ↔ is_Some (acc !! k) ∨ k ∈ names bird_list) ∧
  (non_negative acc → non_negative counts).
Proof.
  revert acc st. induction bird_list as [|b rest IH]; intros acc st.
  { intros [= <- <-]. split; [|done]. intros k. unfold names. simpl.
    rewrite elem_of_nil. tauto. }
  simpl.
  assert (∀ (v : Z) st0, (0 ≤ v)%Z →
            count_observations w loc days_back years_back rest
              (<[get_str b "common_name" := v]> acc) st0 = (Ok counts, st') →
            (∀ k, is_Some (counts !! k)
                  ↔ is_Some (acc !! k) ∨ k ∈ names (b :: rest)) ∧
            (non_negative acc → non_negative counts)) as Hnext.
  { intros v st0 Hv Hrun. destruct (IH _ _ Hrun) as [Hdom Hnn]. split.
    - intros k. rewrite Hdom. unfold names. simpl.
      rewrite elem_of_cons, lookup_insert_is_Some.
      destruct (decide (get_str b "common_name" = k)) as [Heq|Hne].
      + split; [intros _|intros _; left; by left]. right. by left.
      + split.
        * intros [[Heq|[_ Hk]]|Hk]; [done|by left|by right; right].
        * intros [Hk|[Heq|Hk]]; [left; by right|by subst|by right].
    - intros Hacc. apply Hnn. by apply map_Forall_insert_2. }
  case_match; [by apply Hnext|].
  destruct (get_species_code w (get_str b "common_name")
              (get_str b "scientific_name") st) as [[[species_code|]|e] st1];
    [|by apply Hnext|done].
  case_match; [by apply Hnext|].
  destruct (observations_at w loc species_code days_back years_back st1)
    as [[[observations|]|e] st2]; [|by apply Hnext|done].
  apply Hnext. lia.
Qed.

Lemma foldr_add_bound (l : list Z) (c : Z) :
  Forall (λ v, (0 ≤ v)%Z) l → c ∈ l → (c ≤ foldr Z.add 0 l)%Z.
Proof.
  induction 1 as [|v l Hv Hl IH]; simpl.
  { intros Hin. by apply elem_of_nil in Hin. }
  intros [->|Hin]%elem_of_cons.
  - assert (0 ≤ foldr Z.add 0 l)%Z; [|lia].
    clear IH. induction Hl as [|v' l' Hv' _ IH']; simpl; lia.
  - specialize (IH Hin). lia.
Qed.

Lemma count_le_total (observation_counts : gmap string Z) k c :
  non_negative observation_counts →
  observation_counts !! k = Some c →
  (0 ≤ c ≤ total_observations observation_counts)%Z.
Proof.
  intros Hnn Hk. split; [by apply (Hnn k c)|].
  unfold total_observations. rewrite foldl_add, Z.add_0_l.
  apply foldr_add_bound.
  - apply Forall_fmap. apply map_Forall_to_list in Hnn.
    eapply Forall_impl; [done|]. by intros [k' v'].
  - apply list_elem_of_fmap. exists (k, c). split; [done|].
    by apply elem_of_map_to_list.
Qed.

Lemma probability_range (total count : Z) :
  (0 ≤ count ≤ total)%Z →
  (0 <= probability (F:=Q) total count <= 100)%Q.
Proof.
  intros [Hc Ht]. unfold probability.
  destruct (Z.ltb_spec 0 total) as [Hpos|Hnp]; [|by vm_compute].
  simpl.
  assert (0 < inject_Z total)%Q as HT.
  { change 0%Q with (inject_Z 0). by rewrite <- Zlt_Qlt. }
  assert (0 <= inject_Z count / inject_Z total)%Q as H0.
  { apply Qle_shift_div_l; [done|]. rewrite Qmult_0_l.
    change 0%Q with (inject_Z 0). by rewrite <- Zle_Qle. }
  assert (inject_Z count / inject_Z total <= 1)%Q as H1.
  { apply Qle_shift_div_r; [done|]. rewrite Qmult_1_l. by rewrite <- Zle_Qle. }
  change (inject_Z 100) with 100%Q. split; lra.
Qed.

Lemma probabilities_of_shares (observation_counts : gmap string Z) :
  non_negative observation_counts →
  (∀ name p, probabilities_of (F:=Q) observation_counts !! name = Some p →
             (0 <= p <= 100)%Q) ∧
  ((Qsum (snd <$> map_to_list (probabilities_of (F:=Q) observation_counts))
    == 100)%Q ∨
   ∀ name p, probabilities_of (F:=Q) observation_counts !! name = Some p →
             p = 0%Q).
Proof.
  intros Hnn. split.
  - intros name p. rewrite probabilities_of_lookup.
    destruct (observation_counts !! name) as [c|] eqn:Hc; [|done].
    intros [= <-]. apply probability_range. by eapply count_le_total.
  - destruct (Z.ltb_spec 0 (total_observations observation_counts)) as [Hpos|Hnp].
    + left. by apply probabilities_sum.
    + right. intros name p. rewrite probabilities_of_lookup.
      destruct (observation_counts !! name) as [c|]; [|done].
      intros [= <-]. unfold probability.
      by rewrite (proj2 (Z.ltb_ge 0 _) Hnp).
Qed.


Lemma calculate_probabilities_Ok (bird_suggestions : list suggestion)
    location days_back years_back st (probabilities : gmap string Q) st' :
  calculate_probabilities (F:=Q) w bird_suggestions location
    days_back years_back st = (Ok probabilities, st') →
  (∀ name, is_Some (probabilities !! name)
           ↔ name ∈ names (to_bird_dict <$> bird_suggestions)) ∧
  (∀ name p, probabilities !! name = Some p → (0 <= p <= 100)%Q) ∧
  ((Qsum (snd <$> map_to_list probabilities) == 100)%Q ∨
   ∀ name p, probabilities !! name = Some p → p = 0%Q).
Proof.
  unfold calculate_probabilities.
  destruct bird_suggestions as [|b bs].
  { intros [= <- <-]. split_and!.
    - intros name. rewrite lookup_empty. unfold names. simpl.
      rewrite elem_of_nil. split; [by intros [? ?]|done].
    - intros name p. by rewrite lookup_empty.
    - right. intros name p. by rewrite lookup_empty. }
  destruct location as [loc|]; [|done].
  destruct (loc_type loc) as [ty|]; [|done].
  destruct (count_observations w loc days_back years_back
              (to_bird_dict <$> b :: bs) ∅ st) as [[counts|e] st1] eqn:Hrun;
    [|done].
  intros [= <- <-].
  destruct (count_observations_Ok _ _ _ _ _ _ _ _ Hrun) as [Hdom Hnn].
  assert (non_negative counts) as Hcounts by (apply Hnn, map_Forall_empty).
  destruct (probabilities_of_shares counts Hcounts) as [Hrange Hsum].
  split_and!; [|done..].
  intros name. rewrite probabilities_of_lookup, fmap_is_Some, Hdom, lookup_empty.
  split; [|by right]. intros [[? [=]]|?]; done.
Qed.





End PipelineWhole.

Section PipelineWholeResults.
Import PyStr Ebird Scenario.

(** Whenever [calculate_probabilities] returns, it has one probability for
    each name of the candidate list and for nothing else; in exact
    arithmetic each probability lies in [0,100], and the probabilities
    either sum to 100 or are all 0. *)
Theorem calculated_probabilities_are_shares (w : World)
    (bird_suggestions : list suggestion) (location : option location_dict)
    (days_back years_back : Z) (st st' : State)
    (probabilities : gmap string Q) :
  calculate_probabilities (F:=Q) w bird_suggestions location
    days_back years_back st = (Ok probabilities, st') →
  (∀ name, is_Some (probabilities !! name)
           ↔ name ∈ names (to_bird_dict <$> bird_suggestions)) ∧
  (∀ name p, probabilities !! name = Some p → (0 <= p <= 100)%Q) ∧
  ((Qsum (snd <$> map_to_list probabilities) == 100)%Q ∨
   ∀ name p, probabilities !! name = Some p → p = 0%Q).
Proof. apply calculate_probabilities_Ok. Qed.

Lemma calculated_probabilities_are_shares_witness :
  ∃ probabilities st',
    calculate_probabilities (F:=Q)
      (serving [carolina_wren; house_wren] [seen "2024-05-01 10:00"])
      (BirdDict <$> two_wrens) (Some philadelphia) 30 5 initial_state
    = (Ok probabilities, st') ∧
    (∀ name p, probabilities !! name = Some p → (0 <= p <= 100)%Q) ∧
    ((Qsum (snd <$> map_to_list probabilities) == 100)%Q ∨
     ∀ name p, probabilities !! name = Some p → p = 0%Q).
Proof.
  destruct (calculate_probabilities (F:=Q)
              (serving [carolina_wren; house_wren] [seen "2024-05-01 10:00"])
              (BirdDict <$> two_wrens) (Some philadelphia) 30 5 initial_state)
    as [[probabilities|e] st'] eqn:Hrun; [|by vm_compute in Hrun].
  exists probabilities, st'. split; [done|].
  apply (calculated_probabilities_are_shares _ _ _ _ _ _ _ _ Hrun).
Defined.

(** [calculate_probabilities] asks for the taxonomy at most once for each
    candidate, and not at all once the taxonomy is cached: the cached table
    is then left as it is. This holds whether it returns or raises. *)
Theorem taxonomy_requests_bounded (F : Type) (HF : PyFloat F) (w : World)
    (bird_suggestions : list suggestion) (location : option location_dict)
    (days_back years_back : Z) (st st' : State) (r : result (gmap string F)) :
  calculate_probabilities w bird_suggestions location days_back years_back st
  = (r, st') →
  taxonomy_requests st ≤ taxonomy_requests st'
    ≤ taxonomy_requests st + length bird_suggestions ∧
  ∀ taxonomy, taxonomy_cache st = Some taxonomy →
              taxonomy_cache st' = Some taxonomy ∧
              taxonomy_requests st' = taxonomy_requests st.
Proof.
  unfold calculate_probabilities.
  destruct bird_suggestions as [|b bs].
  { intros [= <- <-]. apply advance_refl. }
  destruct location as [loc|].
  2:{ intros [= <- <-]. apply (advance_refl (length (b :: bs))). }
  destruct (loc_type loc) as [ty|].
  2:{ intros [= <- <-]. apply (advance_refl (length (b :: bs))). }
  destruct (count_observations w loc days_back years_back
              (to_bird_dict <$> b :: bs) ∅ st) as [r1 st1] eqn:Hrun.
  apply count_observations_advance in Hrun. rewrite length_fmap in Hrun.
  by destruct r1; intros [= <- <-].
Qed.

Lemma taxonomy_requests_bounded_witness :
  taxonomy_requests
    (calculate_probabilities (F:=Q) (flaky [carolina_wren; house_wren])
       (BirdDict <$> two_wrens) (Some philadelphia) 30 5 initial_state).2
  ≤ 0 + 2.
Proof.
  refine (proj2 (proj1 (taxonomy_requests_bounded Q exact
           (flaky [carolina_wren; house_wren])
           (BirdDict <$> two_wrens) (Some philadelphia) 30 5 initial_state
           (calculate_probabilities (F:=Q) (flaky [carolina_wren; house_wren])
              (BirdDict <$> two_wrens) (Some philadelphia) 30 5 initial_state).2
           (calculate_probabilities (F:=Q) (flaky [carolina_wren; house_wren])
              (BirdDict <$> two_wrens) (Some philadelphia) 30 5 initial_state).1
           _))).
  by vm_compute.
Defined.





End PipelineWholeResults.

(** ** More on strings: trimming, character classes, splitting *)

Section TrimFacts.
Import PyStr Mistral.

Lemma lstrip_eq_or_shorter s :
  lstrip s = s ∨ String.length (lstrip s) < String.length s.
Proof.
  induction s as [|c s IH]; simpl; [by left|].
  destruct (is_space c); [|by left]. right. destruct IH as [->|]; lia.
Qed.

Lemma lstrip_head c s : lstrip (String c s) = String c s → is_space c = false.
Proof.
  simpl. destruct (is_space c); [|done]. intros Heq.
  destruct (lstrip_eq_or_shorter s) as [Hs|Hs].
  - rewrite Hs in Heq. apply (f_equal String.length) in Heq. simpl in Heq. lia.
  - rewrite Heq in Hs. simpl in Hs. lia.
Qed.

Lemma lstrip_idemp s : lstrip (lstrip s) = lstrip s.
Proof.
  induction s as [|c s IH]; simpl; [done|].
  destruct (is_space c) eqn:Hc; [done|]. simpl. by rewrite Hc.
Qed.

Lemma lstrip_app s t :
  truthy s = true → lstrip s = s → lstrip (s +:+ t) = s +:+ t.
Proof.
  destruct s as [|c s]; [done|]. intros _ Hs.
  apply lstrip_head in Hs. simpl. by rewrite Hs.
Qed.

Lemma rstrip_cons c s :
  rstrip (String c s)
  = if truthy (rstrip s) then String c (rstrip s)
    else if is_space c then EmptyString else String c EmptyString.
Proof. simpl. by destruct (rstrip s). Qed.

Lemma rstrip_length s : String.length (rstrip s) ≤ String.length s.
Proof.
  induction s as [|c s IH]; [done|]. rewrite rstrip_cons.
  destruct (rstrip s); simpl in *; [destruct (is_space c); simpl; lia|lia].
Qed.

Lemma rstrip_idemp s : rstrip (rstrip s) = rstrip s.
Proof.
  induction s as [|c s IH]; [done|]. rewrite rstrip_cons.
  destruct (truthy (rstrip s)) eqn:Hr.
  - by rewrite rstrip_cons, IH, Hr.
  - destruct (is_space c) eqn:Hc; [done|]. simpl. by rewrite Hc.
Qed.

Lemma rstrip_head c s :
  is_space c = false → ∃ r, rstrip (String c s) = String c r.
Proof.
  intros Hc. rewrite rstrip_cons, Hc. destruct (truthy (rstrip s)); by eexists.
Qed.

Lemma lstrip_rstrip s : lstrip s = s → lstrip (rstrip s) = rstrip s.
Proof.
  destruct s as [|c s]; [done|]. intros Hs. apply lstrip_head in Hs.
  destruct (rstrip_head c s Hs) as [r ->]. simpl. by rewrite Hs.
Qed.

Lemma strip_idemp s : strip (strip s) = strip s.
Proof.
  unfold strip. rewrite (lstrip_rstrip (lstrip s)) by apply lstrip_idemp.
  apply rstrip_idemp.
Qed.

Lemma trimmed_strip s : trimmed (strip s).
Proof. apply strip_idemp. Qed.

Lemma trimmed_inv s : trimmed s → lstrip s = s ∧ rstrip s = s.
Proof.
  unfold trimmed, strip. intros Hs.
  destruct (lstrip_eq_or_shorter s) as [Hl|Hl].
  - rewrite Hl in Hs. done.
  - pose proof (rstrip_length (lstrip s)) as Hr. rewrite Hs in Hr. lia.
Qed.

Lemma rstrip_app s t :
  truthy (rstrip t) = true → rstrip (s +:+ t) = s +:+ rstrip t.
Proof.
  intros Ht. induction s as [|c s IH]; [done|].
  change (String c s +:+ t) with (String c (s +:+ t)).
  rewrite rstrip_cons, IH.
  assert (truthy (s +:+ rstrip t) = true) as ->; [|done].
  destruct s; [done|done].
Qed.

Lemma rstrip_app_trimmed s t :
  truthy t = true → rstrip t = t → rstrip (s +:+ t) = s +:+ t.
Proof. intros Ht Hr. rewrite rstrip_app; by rewrite Hr. Qed.

Lemma rstrip_app_blank s t :
  rstrip t = EmptyString → rstrip (s +:+ t) = rstrip s.
Proof.
  intros Ht. induction s as [|c s IH]; [done|].
  change (String c s +:+ t) with (String c (s +:+ t)).
  by rewrite !rstrip_cons, IH.
Qed.

Lemma strip_padded_right s : trimmed s → truthy s = true → strip (s +:+ " ") = s.
Proof.
  intros Hs Ht. destruct (trimmed_inv s Hs) as [Hl Hr].
  unfold strip. rewrite lstrip_app by done.
  rewrite rstrip_app_blank by done. done.
Qed.

Lemma strip_padded_left s : trimmed s → strip (" " +:+ s) = s.
Proof. intros Hs. exact Hs. Qed.

Lemma string_app_assoc (a b c : string) : (a +:+ b) +:+ c = a +:+ (b +:+ c).
Proof.
  induction a as [|x a IH]; [done|].
  change (String x ((a +:+ b) +:+ c) = String x (a +:+ (b +:+ c))).
  by rewrite IH.
Qed.

(** Character classes *)

Lemma all_chars_app ok s t :
  all_chars ok (s +:+ t) = all_chars ok s && all_chars ok t.
Proof.
  induction s as [|c s IH]; [done|]. simpl. rewrite IH. by rewrite andb_assoc.
Qed.

Lemma all_chars_impl (ok ok' : ascii → bool) s :
  (∀ c, ok c = true → ok' c = true) →
  all_chars ok s = true → all_chars ok' s = true.
Proof.
  intros Himpl. induction s as [|c s IH]; [done|]. simpl.
  intros [Hc Hs]%andb_true_iff. rewrite (Himpl c Hc). by apply IH.
Qed.

Lemma all_chars_lstrip ok s :
  all_chars ok s = true → all_chars ok (lstrip s) = true.
Proof.
  induction s as [|c s IH]; [done|]. simpl.
  intros [Hc Hs]%andb_true_iff.
  destruct (is_space c); [by apply IH|]. simpl. by rewrite Hc.
Qed.

Lemma all_chars_rstrip ok s :
  all_chars ok s = true → all_chars ok (rstrip s) = true.
Proof.
  induction s as [|c s IH]; [done|]. rewrite rstrip_cons.
  simpl. intros [Hc Hs]%andb_true_iff.
  destruct (truthy (rstrip s)).
  - simpl. rewrite Hc. by apply IH.
  - destruct (is_space c); [done|]. simpl. by rewrite Hc.
Qed.

Lemma all_chars_strip ok s :
  all_chars ok s = true → all_chars ok (strip s) = true.
Proof. intros Hs. by apply all_chars_rstrip, all_chars_lstrip. Qed.

Lemma all_chars_keep ok s : all_chars ok (keep_chars ok s) = true.
Proof.
  induction s as [|c s IH]; [done|]. simpl.
  destruct (ok c) eqn:Hc; [|done]. simpl. by rewrite Hc.
Qed.

Lemma keep_chars_id ok s : all_chars ok s = true → keep_chars ok s = s.
Proof.
  induction s as [|c s IH]; [done|]. simpl.
  intros [Hc Hs]%andb_true_iff. by rewrite Hc, IH.
Qed.

Lemma all_chars_lower (ok : ascii → bool) s :
  (∀ c, ok c = true → ok (lower_char c) = true) →
  all_chars ok s = true → all_chars ok (lower s) = true.
Proof.
  intros Hok. induction s as [|c s IH]; [done|]. simpl.
  intros [Hc Hs]%andb_true_iff. rewrite (Hok c Hc). by apply IH.
Qed.

(** A substring has only characters of the string. *)
Lemma prefix_all_chars ok sub s :
  String.prefix sub s = true → all_chars ok s = true →
  all_chars ok sub = true.
Proof.
  revert s. induction sub as [|c sub IH]; intros s; [done|].
  destruct s as [|c' s]; [done|]. simpl.
  destruct (ascii_dec c c') as [->|]; [|done].
  intros Hp [Hc Hs]%andb_true_iff. rewrite Hc. by eapply IH.
Qed.

Lemma contains_all_chars ok sub s :
  contains sub s = true → all_chars ok s = true → all_chars ok sub = true.
Proof.
  induction s as [|c s IH].
  - simpl. rewrite orb_false_r. intros Hp _. destruct sub; done.
  - unfold contains; fold contains.
    intros [Hp|Hc]%orb_true_iff Hs.
    + by eapply prefix_all_chars.
    + simpl in Hs. apply andb_true_iff in Hs as [_ Hs]. by apply IH.
Qed.

Lemma contains_app_r sub s t :
  contains sub t = true → contains sub (s +:+ t) = true.
Proof.
  intros Ht. induction s as [|c s IH]; [done|].
  change (String c s +:+ t) with (String c (s +:+ t)).
  unfold contains; fold contains. rewrite IH. apply orb_true_r.
Qed.

(** Splitting *)

Lemma split_on_cons sep c s :
  Ascii.eqb c sep = false →
  ∃ part parts, split_on sep s = part :: parts ∧
                split_on sep (String c s) = String c part :: parts.
Proof.
  intros Hc. simpl. rewrite Hc.
  assert (∃ part parts, split_on sep s = part :: parts) as (part & parts & Hs).
  { destruct s as [|c' s]; simpl; [by eexists _, _|].
    destruct (Ascii.eqb c' sep); [by eexists _, _|].
    destruct (split_on sep s); by eexists _, _. }
  rewrite Hs. by eexists _, _.
Qed.

Lemma split_on_app sep a b :
  split_on sep (a +:+ String sep b) = split_on sep a ++ split_on sep b.
Proof.
  induction a as [|c a IH].
  { simpl. by rewrite Ascii.eqb_refl. }
  change (String c a +:+ String sep b) with (String c (a +:+ String sep b)).
  destruct (Ascii.eqb c sep) eqn:Hc.
  { simpl. by rewrite Hc, IH. }
  destruct (split_on_cons sep c a Hc) as (part & parts & Ha & ->).
  destruct (split_on_cons sep c (a +:+ String sep b) Hc)
    as (part' & parts' & Hab & ->).
  rewrite IH, Ha in Hab. simpl in Hab. by injection Hab as <- <-.
Qed.

Lemma split_on_none sep s :
  all_chars (λ c, negb (Ascii.eqb c sep)) s = true → split_on sep s = [s].
Proof.
  induction s as [|c s IH]; [done|]. simpl.
  intros [Hc Hs]%andb_true_iff. apply negb_true_iff in Hc.
  by rewrite Hc, IH.
Qed.

Lemma take_take_app {A : Type} (n : nat) (l k : list A) :
  take n (take n l ++ take n k) = take n (l ++ k).
Proof.
  rewrite !take_app, take_take, Nat.min_id, length_take, take_take.
  f_equal. f_equal. lia.
Qed.

End TrimFacts.

(** ** The parser of the suggestions *)

Section ParserAnswers.
Import PyStr Mistral Scenario.

Lemma clean_name_intro s :
  truthy (strip (keep_chars name_char s))
  && (2 <? len (strip (keep_chars name_char s)))%Z = true →
  clean_name (strip (keep_chars name_char s)).
Proof.
  intros [_ Hlen%Z.ltb_lt]%andb_true_iff. split_and!; [done|..].
  - apply trimmed_strip.
  - apply all_chars_strip, all_chars_keep.
Qed.

Lemma parse_piped_entry line_clean b :
  parse_piped line_clean = Some b → parsed_entry b.
Proof.
  unfold parse_piped. destruct (contains "|" line_clean); [|done].
  destruct (strip <$> split_on "|" line_clean) as [|part0 [|part1 parts]];
    [done..|].
  destruct (truthy _ && _) eqn:Hok; [|done]. intros [= <-].
  eexists _, _. split_and!; [done|..].
  - by apply clean_name_intro.
  - apply trimmed_strip.
  - apply all_chars_strip, all_chars_keep.
Qed.

Lemma parse_fallback_entry line_clean b :
  parse_fallback line_clean = Some b → parsed_entry b.
Proof.
  unfold parse_fallback.
  destruct (truthy _ && _) eqn:Hok; [|done]. simpl.
  destruct (negb _); [|done]. intros [= <-].
  eexists _, _. split_and!; [done|..|done|done].
  by apply clean_name_intro.
Qed.

Lemma parse_line_entry line b : parse_line line = Some b → parsed_entry b.
Proof.
  unfold parse_line. destruct (negb _); [done|].
  destruct (mentions _ _); [done|].
  destruct (parse_piped _) as [b'|] eqn:Hp.
  - intros [= <-]. by eapply parse_piped_entry.
  - apply parse_fallback_entry.
Qed.

Lemma parsed_entries content :
  Forall parsed_entry (parse_structured_bird_suggestions content).
Proof.
  apply Forall_forall. intros b Hin.
  unfold parse_structured_bird_suggestions in Hin.
  apply elem_of_take in Hin as (i & Hin & _).
  apply list_elem_of_lookup_2, list_elem_of_omap in Hin as (line & _ & Hline).
  by eapply parse_line_entry.
Qed.



(** The parser returns at most five entries. Each carries a common name of
    more than two characters that are word characters, whitespace or
    hyphens, and a scientific name of word characters and whitespace;
    neither name has whitespace at its ends. *)
Theorem parsed_names_are_clean (content : string) :
  length (parse_structured_bird_suggestions content) ≤ 5 ∧
  ∀ b, b ∈ parse_structured_bird_suggestions content →
       ∃ common_name scientific_name,
         b = make_bird common_name scientific_name ∧
         (2 < len common_name)%Z ∧
         strip common_name = common_name ∧
         all_chars name_char common_name = true ∧
         strip scientific_name = scientific_name ∧
         all_chars scientific_char scientific_name = true.
Proof.
  split.
  - unfold parse_structured_bird_suggestions. rewrite length_take. lia.
  - intros b Hin.
    pose proof (parsed_entries content) as Hall.
    rewrite Forall_forall in Hall.
    destruct (Hall b Hin)
      as (common_name & scientific_name & -> & (Hlen & Htrim & Hchars) & Hs & Hsc).
    by exists common_name, scientific_name.
Qed.

Lemma parsed_names_are_clean_witness :
  length (parse_structured_bird_suggestions two_lines) ≤ 5 ∧
  ∃ common_name scientific_name,
    make_bird "House Wren" "Troglodytes aedon"
    = make_bird common_name scientific_name ∧
    (2 < len common_name)%Z ∧
    strip common_name = common_name ∧
    all_chars name_char common_name = true ∧
    strip scientific_name = scientific_name ∧
    all_chars scientific_char scientific_name = true.
Proof.
  split.
  - apply (parsed_names_are_clean two_lines).
  - apply (proj2 (parsed_names_are_clean two_lines)).
    vm_compute. right. left.
Defined.

(** The parser works line by line: what it returns for two texts joined by
    a line break is the first five of what it returns for the one followed
    by what it returns for the other. *)
Theorem parser_reads_line_by_line (content1 content2 : string) :
  parse_structured_bird_suggestions (content1 +:+ String newline content2)
  = take 5 (parse_structured_bird_suggestions content1
            ++ parse_structured_bird_suggestions content2).
Proof.
  unfold parse_structured_bird_suggestions.
  by rewrite split_on_app, omap_app, take_take_app.
Qed.

Lemma digit_not_space c : is_digit c = true → is_space c = false.
Proof. by destruct c as [[] [] [] [] [] [] [] []]. Qed.

Lemma drop_digits_app number rest c :
  all_chars is_digit number = true → is_digit c = false →
  drop_digits (number +:+ String c rest) = String c rest.
Proof.
  intros Hn Hc. induction number as [|d number IH]; simpl.
  { by rewrite Hc. }
  simpl in Hn. apply andb_true_iff in Hn as [-> Hn]. by apply IH.
Qed.

Lemma strip_numbering_numbered number rest :
  truthy number = true → all_chars is_digit number = true →
  strip_numbering (number +:+ ". " +:+ rest) = lstrip rest.
Proof.
  intros Ht Hn. unfold strip_numbering.
  destruct number as [|d number]; [done|].
  change (String d number +:+ ". " +:+ rest)
    with (String d (number +:+ ". " +:+ rest)).
  pose proof Hn as Hd. simpl in Hd. apply andb_true_iff in Hd as [-> _].
  change (String d (number +:+ ". " +:+ rest))
    with (String d number +:+ String "." (String " " rest)).
  rewrite drop_digits_app by done. done.
Qed.

Lemma no_colon_lower c : no_colon c = true → no_colon (lower_char c) = true.
Proof. by destruct c as [[] [] [] [] [] [] [] []]. Qed.

Lemma no_colon_digit c : is_digit c = true → no_colon c = true.
Proof. by destruct c as [[] [] [] [] [] [] [] []]. Qed.

Lemma no_colon_name c : name_char c = true → no_colon c = true.
Proof. by destruct c as [[] [] [] [] [] [] [] []]. Qed.

Lemma no_colon_scientific c : scientific_char c = true → no_colon c = true.
Proof. by destruct c as [[] [] [] [] [] [] [] []]. Qed.

Lemma no_pipe_name c : name_char c = true → negb (Ascii.eqb c "|") = true.
Proof. by destruct c as [[] [] [] [] [] [] [] []]. Qed.

Lemma no_pipe_scientific c :
  scientific_char c = true → negb (Ascii.eqb c "|") = true.
Proof. by destruct c as [[] [] [] [] [] [] [] []]. Qed.

Lemma no_colon_no_mention word s :
  all_chars no_colon s = true → all_chars no_colon word = false →
  contains word s = false.
Proof.
  intros Hs Hw. destruct (contains word s) eqn:Hc; [|done].
  by rewrite (contains_all_chars _ _ _ Hc Hs) in Hw.
Qed.

Lemma parse_piped_pair common_name scientific_name :
  clean_name common_name → trimmed scientific_name →
  all_chars scientific_char scientific_name = true →
  parse_piped (common_name +:+ " | " +:+ scientific_name)
  = Some (make_bird common_name scientific_name).
Proof.
  intros (Hlen & Htrim & Hchars) Hs Hsc.
  assert (truthy common_name = true) as Ht by (by destruct common_name).
  unfold parse_piped.
  rewrite (contains_app_r "|" common_name (" | " +:+ scientific_name)) by done.
  change (common_name +:+ " | " +:+ scientific_name)
    with (common_name +:+ String " " (String "|" (" " +:+ scientific_name))).
  replace (common_name +:+ String " " (String "|" (" " +:+ scientific_name)))
    with ((common_name +:+ " ") +:+ String "|" (" " +:+ scientific_name)).
  2:{ apply (string_app_assoc common_name " "). }
  rewrite split_on_app.
  rewrite (split_on_none "|" (common_name +:+ " ")).
  2:{ rewrite all_chars_app. apply andb_true_iff. split; [|done].
      eapply all_chars_impl; [apply no_pipe_name|done]. }
  rewrite (split_on_none "|" (" " +:+ scientific_name)).
  2:{ change (" " +:+ scientific_name) with (String " " scientific_name).
      simpl. eapply all_chars_impl; [apply no_pipe_scientific|done]. }
  cbn [fmap list_fmap app].
  rewrite (strip_padded_right common_name), (strip_padded_left scientific_name)
    by done.
  rewrite Htrim, Hs, !keep_chars_id, Htrim, Hs by done.
  rewrite Ht. apply Z.ltb_lt in Hlen. by rewrite Hlen.
Qed.

(** The format that the prompt asks for is read back: a line made of a
    number, a full stop, a clean common name, a pipe and a scientific name of
    word characters and whitespace yields exactly these two names, unless
    the line mentions "top 5". *)
Theorem requested_format_is_read (number common_name scientific_name : string) :
  truthy number = true → all_chars is_digit number = true →
  clean_name common_name →
  truthy scientific_name = true → trimmed scientific_name →
  all_chars scientific_char scientific_name = true →
  contains "top 5" (lower (numbered_line number common_name scientific_name))
  = false →
  parse_line (numbered_line number common_name scientific_name)
  = Some (make_bird common_name scientific_name).
Proof.
  intros Hnt Hnd Hclean Hst Hs Hsc Htop.
  pose proof Hclean as (Hlen & Htrim & Hchars).
  assert (truthy common_name = true) as Ht by (by destruct common_name).
  destruct (trimmed_inv _ Htrim) as [Hcl Hcr].
  destruct (trimmed_inv _ Hs) as [Hsl Hsr].
  set (line := numbered_line number common_name scientific_name) in *.
  assert (rstrip (" | " +:+ scientific_name) = " | " +:+ scientific_name) as Hr1.
  { by apply rstrip_app_trimmed. }
  assert (rstrip (common_name +:+ " | " +:+ scientific_name)
          = common_name +:+ " | " +:+ scientific_name) as Hr2.
  { by apply rstrip_app_trimmed. }
  assert (rstrip (". " +:+ common_name +:+ " | " +:+ scientific_name)
          = ". " +:+ common_name +:+ " | " +:+ scientific_name) as Hr3.
  { apply (rstrip_app_trimmed ". "); [by destruct common_name|done]. }
  assert (strip line = line) as Hline.
  { unfold strip, line, numbered_line.
    rewrite lstrip_app; [|done|].
    2:{ destruct number as [|d number]; [done|]. simpl in Hnd.
        apply andb_true_iff in Hnd as [Hd _]. simpl.
        by rewrite (digit_not_space d Hd). }
    by apply rstrip_app_trimmed. }
  assert (all_chars no_colon (lower line) = true) as Hcolon.
  { apply all_chars_lower; [apply no_colon_lower|].
    unfold line, numbered_line. rewrite !all_chars_app.
    rewrite (all_chars_impl _ _ _ no_colon_digit Hnd).
    rewrite (all_chars_impl _ _ _ no_colon_name Hchars).
    by rewrite (all_chars_impl _ _ _ no_colon_scientific Hsc). }
  unfold parse_line. rewrite Hline.
  assert (truthy line = true) as -> by (by destruct number).
  cbn [negb].
  assert (mentions ["description:"; "location:"; "date:"; "top 5"; "important:"]
                   (lower line) = false) as ->.
  { unfold mentions. cbn [existsb]. rewrite Htop.
    by rewrite !(no_colon_no_mention _ _ Hcolon). }
  unfold line, numbered_line.
  rewrite strip_numbering_numbered by done.
  change (lstrip (" " +:+ common_name +:+ " | " +:+ scientific_name))
    with (lstrip (common_name +:+ " | " +:+ scientific_name)).
  rewrite lstrip_app by done.
  assert (strip (common_name +:+ " | " +:+ scientific_name)
          = common_name +:+ " | " +:+ scientific_name) as ->.
  { unfold strip. by rewrite lstrip_app. }
  by rewrite parse_piped_pair.
Qed.

Lemma requested_format_is_read_witness :
  parse_line (numbered_line "1" "Carolina Wren" "Thryothorus ludovicianus")
  = Some (make_bird "Carolina Wren" "Thryothorus ludovicianus").
Proof.
  apply requested_format_is_read.
  - reflexivity.
  - reflexivity.
  - unfold clean_name, trimmed. split_and!; [by vm_compute|reflexivity..].
  - reflexivity.
  - reflexivity.
  - reflexivity.
  - reflexivity.
Defined.

End ParserAnswers.

(** ** The request for suggestions *)

Section SuggestionRequests.
Import PyStr Mistral Scenario.

Lemma pad_to_five_length (birds : list bird) : length (pad_to_five birds) = 5.
Proof.
  unfold pad_to_five. rewrite length_take, length_app, length_replicate. lia.
Qed.

Lemma pad_to_five_short (birds : list bird) :
  length birds ≤ 5 →
  pad_to_five birds = birds ++ replicate (5 - length birds) padding.
Proof.
  intros Hlen. unfold pad_to_five. apply take_ge.
  rewrite length_app, length_replicate. lia.
Qed.

Lemma handle_cases model e :
  handle model e = Continue ∨
  handle model e = Raised OtherException ∨
  ∃ status, handle model e = Raised (HTTPError status) ∧
            status ≠ 404%Z ∧ status ≠ 400%Z.
Proof.
  destruct e as [| | | | |status| |]; simpl; try (case_match; by auto).
  destruct (Z.eqb_spec status 404); [by left|].
  destruct (Z.eqb_spec status 400); [by left|].
  right. right. by exists status.
Qed.

Lemma handle_not_Return model e r : handle model e ≠ Return r.
Proof. by destruct (handle_cases model e) as [->|[->|(? & -> & _)]]. Qed.

Lemma try_model_Return s api_key model description context_str r :
  try_model s api_key model description context_str = Return r →
  model_used r = model ∧
  ∃ resp text,
    post s api_key model description context_str = Ok resp ∧
    content resp = Ok text ∧
    parse_structured_bird_suggestions (strip text) ≠ [] ∧
    suggestion_list r
    = pad_to_five (parse_structured_bird_suggestions (strip text)).
Proof.
  unfold try_model.
  destruct (post s api_key model description context_str) as [resp|e];
    [|by intros ?%handle_not_Return].
  destruct (_ || _); [done|].
  destruct (_ && _); [by intros ?%handle_not_Return|].
  destruct (content resp) as [text|e] eqn:Hc; [|by intros ?%handle_not_Return].
  destruct (parse_structured_bird_suggestions (strip text)) as [|b bs] eqn:Hp;
    [done|].
  intros [= <-]. split; [done|]. exists resp, text. by rewrite Hp.
Qed.


Lemma try_models_Ok s api_key models description context_str r :
  try_models s api_key models description context_str = Ok r →
  ∃ model, model ∈ models ∧
           try_model s api_key model description context_str = Return r.
Proof.
  induction models as [|model rest IH]; [done|]. simpl.
  destruct (try_model s api_key model description context_str) as [r'| |e]
    eqn:Hm; [| |done].
  - intros [= <-]. exists model. split; [by left|done].
  - intros (model' & Hin & Hr)%IH. exists model'. split; [by right|done].
Qed.


Lemma blank_description description :
  negb (truthy description) || negb (truthy (strip description))
  = negb (truthy (strip description)).
Proof. by destruct description. Qed.

Lemma get_bird_suggestions_Ok w s description location_info date_info r :
  get_bird_suggestions w s description location_info date_info = Ok r →
  truthy (strip description) = true ∧
  (∃ api_key, Config.get_api_key w "MISTRAL_API_KEY" = Ok api_key) ∧
  model_used r ∈ models_to_try ∧
  ∃ parsed,
    parsed ≠ [] ∧ length parsed ≤ 5 ∧ Forall parsed_entry parsed ∧
    suggestion_list r = parsed ++ replicate (5 - length parsed) padding.
Proof.
  unfold get_bird_suggestions. rewrite blank_description.
  destruct (truthy (strip description)); [|done]. cbn [negb].
  destruct (Config.get_api_key w "MISTRAL_API_KEY") as [api_key|e] eqn:Hkey.
  2:{ by destruct e. }
  intros (model & Hin & Hm)%try_models_Ok.
  apply try_model_Return in Hm as (<- & resp & text & _ & _ & Hne & Hlist).
  split_and!; [done|by eexists|done|].
  exists (parse_structured_bird_suggestions (strip text)).
  assert (length (parse_structured_bird_suggestions (strip text)) ≤ 5) as Hlen.
  { unfold parse_structured_bird_suggestions. rewrite length_take. lia. }
  split_and!; [done|done|apply parsed_entries|].
  by rewrite Hlist, pad_to_five_short.
Qed.

(** A call of [get_bird_suggestions] that returns was made with a
    description that is not blank and with an API key; it names one of the
    four models and has exactly five suggestions: first the entries the
    parser found, of which there is at least one and which all have clean
    names, then entries with empty names to fill up. *)
Theorem suggestions_are_five (w : World) (s : Service)
    (description location_info date_info : string) (r : suggestions) :
  get_bird_suggestions w s description location_info date_info = Ok r →
  truthy (strip description) = true ∧
  (∃ api_key, Config.get_api_key w "MISTRAL_API_KEY" = Ok api_key) ∧
  model_used r ∈ models_to_try ∧
  length (suggestion_list r) = 5 ∧
  ∃ parsed,
    parsed ≠ [] ∧ Forall parsed_entry parsed ∧
    suggestion_list r = parsed ++ replicate (5 - length parsed) padding.
Proof.
  intros Hrun.
  destruct (get_bird_suggestions_Ok _ _ _ _ _ _ Hrun)
    as (Hd & Hkey & Hmodel & parsed & Hne & Hlen & Hall & Hlist).
  split_and!; [done..| |].
  - rewrite Hlist, length_app, length_replicate. lia.
  - by exists parsed.
Qed.

Lemma suggestions_are_five_witness :
  ∃ r, get_bird_suggestions with_keys (answering 200 two_lines)
         "small brown bird" "US-PA" "May 2024" = Ok r ∧
       model_used r = "mistral-large-latest" ∧
       length (suggestion_list r) = 5.
Proof.
  destruct (get_bird_suggestions with_keys (answering 200 two_lines)
              "small brown bird" "US-PA" "May 2024") as [r|e] eqn:Hrun;
    [|by vm_compute in Hrun].
  exists r. split; [done|]. split.
  - vm_compute in Hrun. by injection Hrun as <-.
  - apply (suggestions_are_five _ _ _ _ _ _ Hrun).
Defined.



(** An HTTP error of the first model ends the call, unless its status is
    404 or 400: the error is raised, and no other model is asked, whatever
    it would have answered. *)
Theorem http_error_ends_the_call (w : World) (s : Service)
    (description location_info date_info api_key : string) (resp : response) :
  truthy (strip description) = true →
  Config.get_api_key w "MISTRAL_API_KEY" = Ok api_key →
  (∀ context_str,
     post s api_key "mistral-large-latest" description context_str = Ok resp) →
  (400 ≤ status_code resp < 600)%Z →
  status_code resp ≠ 404%Z → status_code resp ≠ 400%Z →
  get_bird_suggestions w s description location_info date_info
  = Raise (HTTPError (status_code resp)).
Proof.
  intros Hd Hkey Hpost Hrange H404 H400.
  unfold get_bird_suggestions. rewrite blank_description, Hd, Hkey.
  cbn [negb models_to_try try_models].
  unfold try_model. rewrite Hpost.
  destruct (Z.eqb_spec (status_code resp) 404); [done|].
  destruct (Z.eqb_spec (status_code resp) 400); [done|]. simpl.
  destruct (Z.leb_spec 400 (status_code resp)); [|lia].
  destruct (Z.ltb_spec (status_code resp) 600); [|lia]. simpl.
  destruct (Z.eqb_spec (status_code resp) 404); [done|].
  by destruct (Z.eqb_spec (status_code resp) 400).
Qed.

Lemma http_error_ends_the_call_witness :
  get_bird_suggestions with_keys (first_fails 429 two_lines)
    "small brown bird" "US-PA" "May 2024"
  = Raise (HTTPError 429).
Proof.
  apply (http_error_ends_the_call with_keys (first_fails 429 two_lines)
           "small brown bird" "US-PA" "May 2024" "secret"
           (mkResponse 429 (Ok EmptyString))).
  - reflexivity.
  - reflexivity.
  - reflexivity.
  - simpl. lia.
  - simpl. lia.
  - simpl. lia.
Defined.

End SuggestionRequests.

(** ** From the suggestions to the scores *)

Section MainSteps.
Import PyStr Ebird App Mistral Main Scenario.

Lemma not_upper_lower s : all_chars not_upper (lower s) = true.
Proof.
  induction s as [|c s IH]; [done|]. simpl. rewrite IH, andb_true_r.
  by destruct c as [[] [] [] [] [] [] [] []].
Qed.

Lemma lower_has_no_capitals word s :
  all_chars not_upper word = false → contains word (lower s) = false.
Proof.
  intros Hw. destruct (contains word (lower s)) eqn:Hc; [|done].
  by rewrite (contains_all_chars _ _ _ Hc (not_upper_lower s)) in Hw.
Qed.

(** Neither handler ever reports an error of the API configuration: the
    text they look for has capital letters, and they look for it in the
    message in lower case. The first handler reports the same error for every
    message, the second tells apart only the messages that mention the
    taxonomy. *)
Theorem api_configuration_error_is_never_reported (error_msg : string) :
  report_suggestion_failure error_msg = SuggestionError ∧
  report_probability_failure error_msg
  = if contains "taxonomy" (lower error_msg) then TaxonomyError
    else CalculationError.
Proof.
  unfold report_suggestion_failure, report_probability_failure.
  by rewrite (lower_has_no_capitals "API key" error_msg).
Qed.



Lemma some_name_is_valid (bird_suggestions : list bird) :
  forallb (λ b, negb (truthy (get_str b "common_name"))) bird_suggestions
  = false →
  valid_suggestions bird_suggestions ≠ [].
Proof.
  unfold valid_suggestions.
  induction bird_suggestions as [|b rest IH]; simpl; [done|].
  destruct (truthy (get_str b "common_name")); simpl; [done|]. apply IH.
Qed.


Lemma second_check_free (F : Type) (HF : PyFloat F) (w : World)
    (bird_suggestions : list bird) (location : option location_dict)
    (days_back years_back : Z) (llm_weight ebird_weight : F) (st st' : State) :
  score_suggestions w bird_suggestions location days_back years_back
    llm_weight ebird_weight st ≠ (NoValidSuggestions, st').
Proof.
  unfold score_suggestions.
  destruct (_ || _) eqn:Hcheck; [done|].
  apply orb_false_iff in Hcheck as [_ Hall%some_name_is_valid].
  destruct (valid_suggestions bird_suggestions) as [|b bs]; [done|].
  destruct (calculate_probabilities _ _ _ _ _ _) as [[probabilities|e] st1];
    [done|]. by destruct e.
Qed.

(** The second check of the suggestions never fails: a list that passes
    the first check has a name, so the list without the nameless suggestions
    is not empty. *)
Theorem second_check_never_fails (F : Type) (HF : PyFloat F) (w : World)
    (bird_suggestions : list bird) (location : option location_dict)
    (days_back years_back : Z) (llm_weight ebird_weight : F) (st : State) :
  (score_suggestions w bird_suggestions location days_back years_back
     llm_weight ebird_weight st).1 ≠ NoValidSuggestions.
Proof.
  destruct (score_suggestions w bird_suggestions location days_back years_back
              llm_weight ebird_weight st) as [outcome st'] eqn:Hrun.
  simpl. intros ->. by apply second_check_free in Hrun.
Qed.

Lemma second_check_never_fails_witness :
  (score_suggestions (F:=Q) with_keys (two_wrens ++ [padding])
     (Some philadelphia) 30 5 (2 # 5) (3 # 5) initial_state).1
  ≠ NoValidSuggestions.
Proof. apply second_check_never_fails. Defined.




End MainSteps.
